(** * Tenant configuration cache, S3 credentials and event dispatch

    A shallow embedding of [src/internal/database/tenant.ts] and
    [src/internal/queue/event.ts] of the storage service, and the
    properties of those two modules.

    JavaScript objects that the code spreads or indexes by key are finite
    maps from property names to values; typed interfaces are records;
    the module-level caches, the relational tables and everything the
    code does to its collaborators (store queries, queue sends, handler
    invocations, log lines, metrics) live in an explicit [World] that every
    operation threads through. *)

From Stdlib Require Import ZArith.
From stdpp Require Import gmap strings list fin_maps pretty.

Local Open Scope string_scope.

(** ** JavaScript values *)

(** The values that occur as properties of payloads, queue options and
    credential claims. Numbers are the integers the code writes;
    a [Date] is its time value in milliseconds, [None] for an invalid
    date. *)
Inductive value : Type :=
| VUndefined
| VNull
| VBool (b : bool)
| VNum (n : Z)
| VStr (s : string)
| VDate (t : option Z).

Abbreviation object := (gmap string value).

(** [!v] is [negb (truthy v)]. *)
Definition truthy (v : value) : bool :=
  match v with
  | VUndefined | VNull => false
  | VBool b => b
  | VNum n => negb (n =? 0)%Z
  | VStr s => negb (String.eqb s "")
  | VDate _ => true
  end.

(** [v ?? d] *)
Definition nullish (v : value) : bool :=
  match v with
  | VUndefined | VNull => true
  | _ => false
  end.

(** Reading a property: an absent property reads as [undefined]. *)
Definition prop (o : object) (k : string) : value :=
  default VUndefined (o !! k).

(** Truthiness of an optional string property ([$version?: string]). *)
Definition truthy_str (s : option string) : bool :=
  match s with
  | Some s => negb (String.eqb s "")
  | None => false
  end.

(** ** Errors and outcomes *)

Inductive error : Type :=
| InvalidTenantId
| MissingTenantConfig (tenantId : string)
| MissingS3Credentials
| MaximumCredentialsLimit
| JsError (message : string)
| CollaboratorError (message : string).

Inductive outcome (A : Type) : Type :=
| Return (a : A)
| Throw (e : error).
Arguments Return {A} a.
Arguments Throw {A} e.

(** ** Process configuration ([getConfig()]) *)

Record Config : Type := {
  pgQueueEnable : bool;
  region : string;
  isMultitenant : bool;
  dbServiceRole : string;
  serviceKey : string;
  jwtSecret : string
}.

(** ** Tenants *)

Inductive TenantMigrationStatus : Type := COMPLETED | FAILED | FAILED_STALE.

Record ImageTransformation : Type := {
  it_enabled : bool;
  maxResolution : option Z
}.

Record Features : Type := {
  imageTransformation : ImageTransformation;
  s3Protocol_enabled : bool;
  purgeCache_enabled : bool
}.

Record ServiceKeyPayload : Type := { role : string }.

Record TenantConfig : Type := {
  anonKey : option string;
  databaseUrl : string;
  databasePoolUrl : option string;
  maxConnections : option Z;
  fileSizeLimit : Z;
  features : Features;
  tc_jwtSecret : string;
  tc_jwks : option string;
  tc_serviceKey : string;
  serviceKeyPayload : ServiceKeyPayload;
  migrationVersion : option string;
  migrationStatus : option TenantMigrationStatus;
  migrationsRun : bool;
  tracingMode : option string;
  disableEvents : option (list string)
}.

(** A row of the [tenants] table, with the columns [getTenantConfig] reads. *)
Record TenantRow : Type := {
  anon_key : string;
  database_url : string;
  file_size_limit : Z;
  jwt_secret : string;
  jwks : option string;
  service_key : string;
  feature_purge_cache : bool;
  feature_image_transformation : bool;
  feature_s3_protocol : bool;
  image_transformation_max_resolution : option Z;
  database_pool_url : option string;
  max_connections : option Z;
  migrations_version : option string;
  migrations_status : option TenantMigrationStatus;
  tracing_mode : option string;
  disable_events : option (list string)
}.

(** ** S3 credentials *)

Record S3Credentials : Type := {
  accessKey : string;
  secretKey : string;
  claims : object
}.

(** A row of [tenants_s3_credentials]. The [claims] column holds
    [JSON.stringify] of the claims object; the row keeps the object that
    was stringified, and [persisted_claims] gives the properties the JSON
    text carries. *)
Record CredentialRow : Type := {
  cr_id : string;
  tenant_id : string;
  description : string;
  access_key : string;
  secret_key : string;
  cr_claims : object
}.

Definition is_undefined (v : value) : bool :=
  match v with VUndefined => true | _ => false end.

(** [JSON.stringify] leaves out the properties whose value is
    [undefined]. *)
Definition persisted_claims (c : object) : object :=
  filter (fun kv => is_undefined kv.2 = false) c.

(** ** Events: payloads, envelopes and jobs *)

Record Tenant : Type := { ref : string; host : string }.

(** [BasePayload]: the [tenant] property, and in [props] the other own
    properties of the payload object: [$version], [singletonKey],
    [scheduleAt], [reqId] and those of the event's own payload type. *)
Record Payload : Type := {
  tenant : Tenant;
  props : object
}.

(** The job a handler receives. *)
Record Job : Type := {
  job_id : string;
  job_name : string;
  job_data : Payload
}.

(** The argument of [Queue.getInstance().send]. *)
Record SendJob : Type := {
  name : string;
  data : Payload;
  options : option object
}.

(** An element of the array given to [Queue.getInstance().insert]:
    [{...sendOptions, name, data}]. [name] and [data] come last in the
    literal, so they win over properties of those names in the spread
    options. *)
Record JobInsert : Type := {
  ji_options : object;
  ji_name : string;
  ji_data : Payload
}.

Record SlowRetryQueueOptions : Type := {
  retryLimit : Z;
  retryDelay : Z
}.

(** ** The world *)

(** What an operation does to its collaborators, in order. *)
Inductive effect : Type :=
| StoreQuery (table : string) (tenantId : string)
| QueueSend (job : SendJob)
| QueueInsert (jobs : list JobInsert)
| Handle (eventName : string) (job : Job)
| Log (level : string) (message : string)
| Metric (metric : string) (queue : string)
| Publish (channel : string) (key : string).

(** The module-level state of [tenant.ts] (the two caches), the two
    tables of the multitenant database, the number of random draws made so
    far, and the effects so far (latest last). The entries of
    [tenantS3CredentialsCache] are those an LRU [get] would return. *)
Record World : Type := {
  tenantConfigCache : gmap string TenantConfig;
  tenantS3CredentialsCache : gmap string S3Credentials;
  tenants : gmap string TenantRow;
  tenants_s3_credentials : list CredentialRow;
  draws : nat;
  trace : list effect
}.

Definition set_tenantConfigCache (f : gmap string TenantConfig → gmap string TenantConfig)
    (w : World) : World :=
  {| tenantConfigCache := f (tenantConfigCache w);
     tenantS3CredentialsCache := tenantS3CredentialsCache w;
     tenants := tenants w;
     tenants_s3_credentials := tenants_s3_credentials w;
     draws := draws w;
     trace := trace w |}.

Definition set_tenantS3CredentialsCache
    (f : gmap string S3Credentials → gmap string S3Credentials) (w : World) : World :=
  {| tenantConfigCache := tenantConfigCache w;
     tenantS3CredentialsCache := f (tenantS3CredentialsCache w);
     tenants := tenants w;
     tenants_s3_credentials := tenants_s3_credentials w;
     draws := draws w;
     trace := trace w |}.

Definition set_credentials (f : list CredentialRow → list CredentialRow)
    (w : World) : World :=
  {| tenantConfigCache := tenantConfigCache w;
     tenantS3CredentialsCache := tenantS3CredentialsCache w;
     tenants := tenants w;
     tenants_s3_credentials := f (tenants_s3_credentials w);
     draws := draws w;
     trace := trace w |}.

Definition next_draw (w : World) : World :=
  {| tenantConfigCache := tenantConfigCache w;
     tenantS3CredentialsCache := tenantS3CredentialsCache w;
     tenants := tenants w;
     tenants_s3_credentials := tenants_s3_credentials w;
     draws := S (draws w);
     trace := trace w |}.

Definition record (e : effect) (w : World) : World :=
  {| tenantConfigCache := tenantConfigCache w;
     tenantS3CredentialsCache := tenantS3CredentialsCache w;
     tenants := tenants w;
     tenants_s3_credentials := tenants_s3_credentials w;
     draws := draws w;
     trace := (trace w ++ [e])%list |}.

(** ** Computations: state, exceptions *)

Definition M (A : Type) : Type := World → outcome A * World.

Definition ret {A} (a : A) : M A := fun w => (Return a, w).

Definition throw {A} (e : error) : M A := fun w => (Throw e, w).

Definition bind {A B} (m : M A) (k : A → M B) : M B :=
  fun w =>
    match m w with
    | (Return a, w') => k a w'
    | (Throw e, w') => (Throw e, w')
    end.

Notation "'let*' x := m 'in' k" := (bind m (fun x => k))
  (at level 10, x name, m at level 100, k at level 200).
Notation "m >> k" := (bind m (fun _ => k))
  (at level 100, k at level 200, right associativity).

Definition get : M World := fun w => (Return w, w).

Definition modify (f : World → World) : M unit := fun w => (Return tt, f w).

Definition emit (e : effect) : M unit := modify (record e).

Definition lift {A} (o : outcome A) : M A := fun w => (o, w).

(** [try { m } catch (e) { h e }] *)
Definition try_catch {A} (m : M A) (h : error → M A) : M A :=
  fun w =>
    match m w with
    | (Return a, w') => (Return a, w')
    | (Throw e, w') => h e w'
    end.

(** [try { m } finally { f }]: [f] runs whatever [m] did; when [f] throws,
    its exception replaces the outcome of [m]. *)
Definition try_finally {A} (m : M A) (f : M unit) : M A :=
  fun w =>
    match m w with
    | (r, w') =>
        match f w' with
        | (Return _, w'') => (r, w'')
        | (Throw e, w'') => (Throw e, w'')
        end
    end.

(** ** Collaborators *)

(** The library calls of the two modules: symmetric encryption, token
    verification, [crypto.randomBytes(n).toString('hex')] (by draw number),
    the identifier the store gives a new row, [Date.parse], the number a
    text converts to ([None] for [NaN]), and the answer of the durable
    queue to [send] and [insert] (a job id or [null], or a failure). The
    calls to the queue are recorded in the trace. *)
Record Collaborators : Type := {
  decrypt : string → string;
  encrypt : string → string;
  verifyJWT : string → string → outcome ServiceKeyPayload;
  randomBytes_hex : nat → nat → string;
  row_id : nat → string;
  Date_parse : string → option Z;
  Number_parse : string → option Z;
  queue_send : SendJob → outcome value;
  queue_insert : list JobInsert → outcome value
}.

(** ** [tenant.ts] *)

Definition TENANTS_UPDATE_CHANNEL : string := "tenants_update".
Definition TENANTS_S3_CREDENTIALS_UPDATE_CHANNEL : string :=
  "tenants_s3_credentials_update".

Section TenantModule.
Context (cfg : Config) (lib : Collaborators).

Definition deleteTenantConfig (tenantId : string) : M unit :=
  modify (set_tenantConfigCache (delete tenantId)).

(** Modelled from the spec: [createMutexByKey] lives in
    [internal/concurrency], outside the sources at hand. [run(key, fn)]
    executes [fn] with exclusive ownership of [key] and gives back what
    [fn] gives, releasing the key also when [fn] throws. For one caller on
    its own that is [fn]; the callers that race for a key are the
    subject of [Race] below. *)
Definition createMutexByKey {A} (key : string) (fn : M A) : M A := fn.

Definition tenantMutex {A} : string → M A → M A := createMutexByKey.
Definition s3CredentialsMutex {A} : string → M A → M A := createMutexByKey.

(** [multitenantKnex('tenants').first().where('id', tenantId)] *)
Definition select_tenant (tenantId : string) : M (option TenantRow) :=
  emit (StoreQuery "tenants" tenantId) >>
  let* w := get in
  ret (tenants w !! tenantId).

(** The object literal [config] of [getTenantConfig]. *)
Definition tenant_config (row : TenantRow) (serviceKey jwtSecret : string)
    (payload : ServiceKeyPayload) : TenantConfig :=
  {| anonKey := Some (decrypt lib (anon_key row));
     databaseUrl := decrypt lib (database_url row);
     databasePoolUrl :=
       if truthy_str (database_pool_url row)
       then decrypt lib <$> database_pool_url row else None;
     fileSizeLimit := file_size_limit row;
     tc_jwtSecret := jwtSecret;
     tc_jwks := jwks row;
     tc_serviceKey := serviceKey;
     serviceKeyPayload := payload;
     maxConnections :=
       match max_connections row with
       | Some n => if (n =? 0)%Z then None else Some n
       | None => None
       end;
     features :=
       {| imageTransformation :=
            {| it_enabled := feature_image_transformation row;
               maxResolution := image_transformation_max_resolution row |};
          s3Protocol_enabled := feature_s3_protocol row;
          purgeCache_enabled := feature_purge_cache row |};
     migrationVersion := migrations_version row;
     migrationStatus := migrations_status row;
     migrationsRun := false;
     tracingMode := tracing_mode row;
     disableEvents := disable_events row |}.

(** The callback [getTenantConfig] runs under the tenant's mutex. *)
Definition populateTenantConfig (tenantId : string) : M TenantConfig :=
  let* w := get in
  match tenantConfigCache w !! tenantId with
  | Some c => ret c
  | None =>
      let* tenant := select_tenant tenantId in
      match tenant with
      | None => throw (MissingTenantConfig tenantId)
      | Some row =>
          let serviceKey := decrypt lib (service_key row) in
          let jwtSecret := decrypt lib (jwt_secret row) in
          let* serviceKeyPayload := lift (verifyJWT lib serviceKey jwtSecret) in
          let config := tenant_config row serviceKey jwtSecret serviceKeyPayload in
          modify (set_tenantConfigCache <[tenantId := config]>) >>
          let* w' := get in
          ret (default config (tenantConfigCache w' !! tenantId))
      end
  end.

Definition getTenantConfig (tenantId : string) : M TenantConfig :=
  if String.eqb tenantId "" then throw InvalidTenantId
  else
    let* w := get in
    match tenantConfigCache w !! tenantId with
    | Some c => ret c
    | None => tenantMutex tenantId (populateTenantConfig tenantId)
    end.

(** What the two subscriptions of [listenForTenantUpdate] do with a
    message [cacheKey] that arrives on [channel]. *)
Definition onTenantUpdate (channel cacheKey : string) : M unit :=
  if String.eqb channel TENANTS_UPDATE_CHANNEL then
    modify (set_tenantConfigCache (delete cacheKey))
  else if String.eqb channel TENANTS_S3_CREDENTIALS_UPDATE_CHANNEL then
    modify (set_tenantS3CredentialsCache (delete cacheKey))
  else ret tt.

Definition of_tenant (tenantId : string) (r : CredentialRow) : bool :=
  String.eqb (tenant_id r) tenantId.

(** [await multitenantKnex.table('tenants_s3_credentials').count('id')
    .where('tenant_id', tenantId)]. The query is awaited as it stands,
    without the [.first()] that the selects of [getTenantConfig] and
    [getS3CredentialsByAccessKey] end in, so what comes back is the array
    of the rows of the result: the one row [{ count }] of the aggregate. *)
Definition count_rows (tenantId : string) : M (list object) :=
  emit (StoreQuery "tenants_s3_credentials" tenantId) >>
  let* w := get in
  ret [{[ "count" :=
            VNum (Z.of_nat (length (filter (fun r => of_tenant tenantId r = true)
                                           (tenants_s3_credentials w)))) ]}].

(** [data?.k] of an array [data], for a name [k] that is no index: an
    array has [length] and no other property of its own. *)
Definition array_prop {A} (data : list A) (k : string) : value :=
  if String.eqb k "length" then VNum (Z.of_nat (length data)) else VUndefined.

(** [a || b] *)
Definition or_else (a b : value) : value := if truthy a then a else b.

(** [Number(v)]; [None] is [NaN]. *)
Definition Number (v : value) : option Z :=
  match v with
  | VUndefined => None
  | VNull => Some 0%Z
  | VBool b => Some (if b then 1 else 0)%Z
  | VNum n => Some n
  | VStr s => Number_parse lib s
  | VDate t => t
  end.

(** [n >= k]; a comparison with [NaN] is false. *)
Definition at_least (n : option Z) (k : Z) : bool :=
  match n with
  | Some n => (k <=? n)%Z
  | None => false
  end.

Definition countS3Credentials (tenantId : string) : M (option Z) :=
  let* data := count_rows tenantId in
  ret (Number (or_else (array_prop data "count") (VNum 0))).

(** The four [delete data.claims.x] statements. *)
Definition strip_claims (c : object) : object :=
  delete "iat" (delete "exp" (delete "issuer" (delete "iss" c))).

(** [data.claims?.k] *)
Definition opt_prop (c : option object) (k : string) : value :=
  match c with
  | Some o => prop o k
  | None => VUndefined
  end.

(** The object assigned to [data.claims]; later properties of the
    literal replace earlier ones of the same name. *)
Definition credential_claims (tenantId : string) (claims : option object) : object :=
  let claims := strip_claims <$> claims in
  <["sub" := opt_prop claims "sub"]>
    (<["issuer" := VStr ("supabase.storage." ++ tenantId)]>
       (<["role" := if nullish (opt_prop claims "role")
                    then VStr (dbServiceRole cfg)
                    else opt_prop claims "role"]>
          (default ∅ claims))).

Record CreatedCredential : Type := {
  cc_id : string;
  cc_access_key : string;
  cc_secret_key : string
}.

(** [crypto.randomBytes(n).toString('hex').slice(0, n)] *)
Definition random_key (n : nat) : M string :=
  let* w := get in
  modify next_draw >>
  ret (String.substring 0 n (randomBytes_hex lib (draws w) n)).

Definition createS3Credentials (tenantId : string) (description : string)
    (claims : option object) : M CreatedCredential :=
  let* existingCount := countS3Credentials tenantId in
  if at_least existingCount 50 then throw MaximumCredentialsLimit
  else
    let* secretAccessKeyId := random_key 32 in
    let* secretAccessKey := random_key 64 in
    let claims := credential_claims tenantId claims in
    let* w := get in
    let id := row_id lib (length (tenants_s3_credentials w)) in
    modify (set_credentials (fun rows => (rows ++
      [{| cr_id := id;
          tenant_id := tenantId;
          description := description;
          access_key := secretAccessKeyId;
          secret_key := encrypt lib secretAccessKey;
          cr_claims := claims |}])%list)) >>
    ret {| cc_id := id;
           cc_access_key := secretAccessKeyId;
           cc_secret_key := secretAccessKey |}.

Definition cacheKey (tenantId accessKey : string) : string :=
  tenantId ++ ":" ++ accessKey.

Definition has_access_key (tenantId accessKey : string) (r : CredentialRow) : bool :=
  String.eqb (tenant_id r) tenantId && String.eqb (access_key r) accessKey.

(** The callback [getS3CredentialsByAccessKey] runs under the mutex of
    the cache key. *)
Definition populateS3Credentials (tenantId accessKey : string) : M S3Credentials :=
  let* w := get in
  match tenantS3CredentialsCache w !! cacheKey tenantId accessKey with
  | Some c => ret c
  | None =>
      emit (StoreQuery "tenants_s3_credentials" tenantId) >>
      match List.find (has_access_key tenantId accessKey) (tenants_s3_credentials w) with
      | None => throw MissingS3Credentials
      | Some row =>
          let credentials :=
            {| accessKey := access_key row;
               secretKey := decrypt lib (secret_key row);
               claims := persisted_claims (cr_claims row) |} in
          modify (set_tenantS3CredentialsCache
                    <[cacheKey tenantId accessKey := credentials]>) >>
          ret credentials
      end
  end.

Definition getS3CredentialsByAccessKey (tenantId accessKey : string) : M S3Credentials :=
  let* w := get in
  match tenantS3CredentialsCache w !! cacheKey tenantId accessKey with
  | Some c => ret c
  | None =>
      s3CredentialsMutex (cacheKey tenantId accessKey)
                         (populateS3Credentials tenantId accessKey)
  end.

Definition is_credential (tenantId credentialId : string) (r : CredentialRow) : bool :=
  String.eqb (tenant_id r) tenantId && String.eqb (cr_id r) credentialId.

(** [.where('tenant_id', tenantId).where('id', credentialId).delete()
    .returning('id')]: the matching rows go, their ids come back. *)
Definition deleteS3Credential (tenantId credentialId : string) : M (list string) :=
  let* w := get in
  emit (StoreQuery "tenants_s3_credentials" tenantId) >>
  modify (set_credentials
            (filter (fun r => is_credential tenantId credentialId r = false))) >>
  ret (cr_id <$> filter (fun r => is_credential tenantId credentialId r = true)
                        (tenants_s3_credentials w)).

End TenantModule.

(** ** [event.ts] *)

(** What a concrete event type declares statically: the class name, and
    the static members a subclass of [Event] may override. [handle] is a
    computation on the world; where the dispatcher calls it, it is taken
    to run to its end. *)
Record EventClass : Type := {
  eventName : string;
  version : string;
  queueName : string;
  allowSync : bool;
  getQueueOptions : Payload → option object;
  withSlowRetryQueue : option SlowRetryQueueOptions;
  handle : Job → M value
}.

(** The base class [Event] with its defaults. *)
Definition Event : EventClass :=
  {| eventName := "Event";
     version := "v1";
     queueName := "";
     allowSync := true;
     getQueueOptions := fun _ => None;
     withSlowRetryQueue := None;
     handle := fun _ => throw (JsError "not implemented") |}.

(** What [batchSend] gives back: the array of [Promise.all], or a plain
    value. *)
Inductive BatchResult : Type :=
| Results (rs : list value)
| Plain (v : value).

Section EventModule.
Context (cfg : Config) (lib : Collaborators).

(** In a static method [this.constructor] is [Function]. *)
Definition queue_name_not_set : error :=
  JsError "Queue name not set on Function".

Definition getQueueName (c : EventClass) : M string :=
  if String.eqb (queueName c) "" then throw queue_name_not_set
  else ret (queueName c).

Definition getSlowRetryQueueName (c : EventClass) : M string :=
  if String.eqb (queueName c) "" then throw queue_name_not_set
  else ret (queueName c ++ "-slow").

Definition shouldSend (c : EventClass) (payload : Payload) : M bool :=
  if isMultitenant cfg then
    let* tenant := getTenantConfig lib (ref (tenant payload)) in
    let disabledEvents := default [] (disableEvents tenant) in
    if bool_decide (eventName c ∈ disabledEvents) then ret false
    else ret true
  else ret true.

(** [{ region, ...this.payload, $version: constructor.version }] *)
Definition envelope (c : EventClass) (payload : Payload) : Payload :=
  {| tenant := tenant payload;
     props := <["$version" := VStr (version c)]>
                (props payload ∪ {["region" := VStr (region cfg)]}) |}.

(** [new Date(v)] *)
Definition new_Date (v : value) : value :=
  match v with
  | VDate t => VDate t
  | VNum n => VDate (Some n)
  | VStr s => VDate (Date_parse lib s)
  | VBool b => VDate (Some (if b then 1 else 0)%Z)
  | VNull => VDate (Some 0%Z)
  | VUndefined => VDate None
  end.

(** [constructor.handle({ id: '__sync', name, data })] *)
Definition handle_sync (c : EventClass) (payload : Payload) : M value :=
  let* name := getQueueName c in
  let job := {| job_id := "__sync"; job_name := name;
                job_data := envelope c payload |} in
  emit (Handle (eventName c) job) >>
  handle c job.

(** [sendOptions] of [send] once [scheduleAt] is looked at. *)
Definition sendOptions_of (c : EventClass) (payload : Payload) : option object :=
  let sendOptions := getQueueOptions c payload in
  if truthy (prop (props payload) "scheduleAt") then
    Some (<["startAfter" := new_Date (prop (props payload) "scheduleAt")]>
            (default ∅ sendOptions))
  else sendOptions.

(** The instance method [send]. *)
Definition send (c : EventClass) (payload : Payload) : M value :=
  let* shouldSend := shouldSend c payload in
  if negb shouldSend then ret VUndefined
  else if negb (pgQueueEnable cfg) then
    if allowSync c then handle_sync c payload
    else
      emit (Log "warn" "[Queue] skipped sending message") >>
      ret VUndefined
  else
    let sendOptions := sendOptions_of c payload in
    try_finally
      (try_catch
         (let* name := getQueueName c in
          let job := {| name := name; data := envelope c payload;
                        options := sendOptions |} in
          emit (QueueSend job) >>
          let* res := lift (queue_send lib job) in
          let* name := getQueueName c in
          emit (Metric "QueueJobScheduled" name) >>
          ret res)
         (fun e =>
            emit (Log "warning"
              "[Queue Sender] Error while sending job to queue, sending synchronously") >>
            handle_sync c payload))
      (let* name := getQueueName c in
       emit (Metric "QueueJobSchedulingTime" name)).

Definition slow_retry_object (o : SlowRetryQueueOptions) : object :=
  {[ "retryLimit" := VNum (retryLimit o); "retryDelay" := VNum (retryDelay o) ]}.

(** [{ retryBackoff: true, startAfter: 60 * 60 * 30, ...sendOptions,
    ...slowRetryQueue }]: a later spread replaces what came before, and
    [∪] prefers its left operand. *)
Definition slow_retry_options (sendOptions : object) (o : SlowRetryQueueOptions) : object :=
  slow_retry_object o ∪
    (sendOptions ∪
       {[ "retryBackoff" := VBool true; "startAfter" := VNum (60 * 60 * 30) ]}).

(** The instance method [sendSlowRetryQueue]. *)
Definition sendSlowRetryQueue (c : EventClass) (payload : Payload) : M value :=
  let slowRetryQueue := withSlowRetryQueue c in
  match slowRetryQueue with
  | Some slowRetryQueue =>
      if negb (pgQueueEnable cfg) then ret VUndefined
      else
        let sendOptions := default ∅ (getQueueOptions c payload) in
        let* name := getSlowRetryQueueName c in
        let job := {| name := name; data := envelope c payload;
                      options := Some (slow_retry_options sendOptions slowRetryQueue) |} in
        emit (QueueSend job) >>
        let* res := lift (queue_send lib job) in
        let* name := getSlowRetryQueueName c in
        emit (Metric "QueueJobSchedulingTime" name) >>
        let* name := getSlowRetryQueueName c in
        emit (Metric "QueueJobScheduled" name) >>
        ret res
  | None => ret VUndefined
  end.

(** [if (!payload.$version) payload.$version = this.version] *)
Definition stamp_version (c : EventClass) (payload : Payload) : Payload :=
  if truthy (prop (props payload) "$version") then payload
  else {| tenant := tenant payload;
          props := <["$version" := VStr (version c)]> (props payload) |}.

(** The static [send] and [sendSlowRetryQueue]. *)
Definition static_send (c : EventClass) (payload : Payload) : M value :=
  send c (stamp_version c payload).

Definition static_sendSlowRetryQueue (c : EventClass) (payload : Payload) : M value :=
  sendSlowRetryQueue c (stamp_version c payload).

(** The callback [batchSend] maps over the messages when the queue is
    enabled; it stamps the message's own payload, which is then the job's
    [data]. *)
Definition batch_job (c : EventClass) (payload : Payload) : M JobInsert :=
  let sendOptions := default ∅ (getQueueOptions c payload) in
  let payload := stamp_version c payload in
  let sendOptions :=
    if truthy (prop (props payload) "scheduleAt")
    then <["startAfter" := new_Date (prop (props payload) "scheduleAt")]> sendOptions
    else sendOptions in
  let* name := getQueueName c in
  ret {| ji_options := sendOptions; ji_name := name; ji_data := payload |}.

Fixpoint map_M {A B} (f : A → M B) (l : list A) : M (list B) :=
  match l with
  | [] => ret []
  | a :: l =>
      let* b := f a in
      let* bs := map_M f l in
      ret (b :: bs)
  end.

(** [Promise.all(messages.map((message) => message.send()))], the sends
    taken one after the other: every send runs, and the first rejection is
    the outcome. *)
Fixpoint all_sends (messages : list (EventClass * Payload)) : M (list value) :=
  match messages with
  | [] => ret []
  | (c, payload) :: rest =>
      fun w =>
        match send c payload w with
        | (Return v, w') =>
            match all_sends rest w' with
            | (Return vs, w'') => (Return (v :: vs), w'')
            | (Throw e, w'') => (Throw e, w'')
            end
        | (Throw e, w') => (Throw e, (all_sends rest w').2)
        end
  end.

(** The static [batchSend]; a message is an instance: its class and its
    payload. *)
Definition batchSend (c : EventClass) (messages : list (EventClass * Payload))
    : M BatchResult :=
  if negb (pgQueueEnable cfg) then
    if allowSync c then
      let* rs := all_sends messages in
      ret (Results rs)
    else
      emit (Log "warn" "[Queue] skipped sending batch messages") >>
      ret (Plain VUndefined)
  else
    let* jobs := map_M (fun m => batch_job c m.2) messages in
    emit (QueueInsert jobs) >>
    let* res := lift (queue_insert lib jobs) in
    ret (Plain res).

End EventModule.

(** ** Counting what reached the collaborators *)

Definition is_tenant_query (tenantId : string) (e : effect) : bool :=
  match e with
  | StoreQuery table t => String.eqb table "tenants" && String.eqb t tenantId
  | _ => false
  end.

(** The number of [select]s on [tenants] for [tenantId] so far. *)
Definition store_queries (tenantId : string) (w : World) : nat :=
  length (List.filter (is_tenant_query tenantId) (trace w)).

(** Effects that reach the durable queue or an event handler. *)
Definition is_dispatch (e : effect) : bool :=
  match e with
  | QueueSend _ | QueueInsert _ | Handle _ _ => true
  | _ => false
  end.

Definition dispatches (w : World) : list effect :=
  List.filter is_dispatch (trace w).

Definition is_publish (e : effect) : bool :=
  match e with
  | Publish _ _ => true
  | _ => false
  end.

Definition credential_count (tenantId : string) (w : World) : nat :=
  length (filter (fun r => of_tenant tenantId r = true) (tenants_s3_credentials w)).

(** ** Callers racing on [getTenantConfig]

    [getTenantConfig(tenantId)] cut at its [await]s. Each caller is at one
    of the points below; a step runs one caller from where it is up to its
    next suspension, as the event loop does. The key of the tenant mutex is
    held by at most one caller, the others wait in [Queued]. *)
Module Race.

Inductive pc : Type :=
| Called
| Queued
| Holding
| Selecting
| Verifying (row : TenantRow)
| Settled (r : outcome TenantConfig).

(** Modelled from the spec: [lock] is the key of the tenant in the
    mutex of [createMutexByKey] (in [internal/concurrency], outside the
    sources at hand): the caller that owns it, if any. A caller gets
    the key only when it is free, and gives it back when its callback has
    returned or thrown. *)
Record state : Type := {
  world : World;
  lock : option nat;
  callers : list pc
}.

Section Steps.
Context (lib : Collaborators) (tenantId : string).

Definition move (i : nat) (p : pc) (s : state) : state :=
  {| world := world s; lock := lock s; callers := <[i := p]> (callers s) |}.

(** The mutex gives the key back when its callback has returned or
    thrown. *)
Definition release (i : nat) (r : outcome TenantConfig) (w : World) (s : state) : state :=
  {| world := w; lock := None; callers := <[i := Settled r]> (callers s) |}.

(** Caller [i] runs to its next suspension; [None] when it cannot move
    (it waits for the key, or it has settled). *)
Definition step (i : nat) (s : state) : option state :=
  match callers s !! i with
  | Some Called =>
      if String.eqb tenantId "" then Some (move i (Settled (Throw InvalidTenantId)) s)
      else
        match tenantConfigCache (world s) !! tenantId with
        | Some c => Some (move i (Settled (Return c)) s)
        | None => Some (move i Queued s)
        end
  | Some Queued =>
      match lock s with
      | None =>
          Some {| world := world s; lock := Some i;
                  callers := <[i := Holding]> (callers s) |}
      | Some _ => None
      end
  | Some Holding =>
      match tenantConfigCache (world s) !! tenantId with
      | Some c => Some (release i (Return c) (world s) s)
      | None =>
          Some {| world := record (StoreQuery "tenants" tenantId) (world s);
                  lock := lock s;
                  callers := <[i := Selecting]> (callers s) |}
      end
  | Some Selecting =>
      match tenants (world s) !! tenantId with
      | None => Some (release i (Throw (MissingTenantConfig tenantId)) (world s) s)
      | Some row => Some (move i (Verifying row) s)
      end
  | Some (Verifying row) =>
      let serviceKey := decrypt lib (service_key row) in
      let jwtSecret := decrypt lib (jwt_secret row) in
      match verifyJWT lib serviceKey jwtSecret with
      | Throw e => Some (release i (Throw e) (world s) s)
      | Return serviceKeyPayload =>
          let config := tenant_config lib row serviceKey jwtSecret serviceKeyPayload in
          let w' := set_tenantConfigCache <[tenantId := config]> (world s) in
          Some (release i (Return (default config (tenantConfigCache w' !! tenantId))) w' s)
      end
  | Some (Settled _) | None => None
  end.

(** A schedule names the caller that runs next; a caller that cannot
    move leaves the state as it is. *)
Fixpoint run (schedule : list nat) (s : state) : state :=
  match schedule with
  | [] => s
  | i :: schedule => run schedule (default s (step i s))
  end.

(** [n] callers have just called [getTenantConfig(tenantId)]. *)
Definition init (n : nat) (w : World) : state :=
  {| world := w; lock := None; callers := replicate n Called |}.

Definition holds_key (p : pc) : bool :=
  match p with
  | Holding | Selecting | Verifying _ => true
  | _ => false
  end.

Definition fetching (p : pc) : bool :=
  match p with
  | Selecting | Verifying _ => true
  | _ => false
  end.

End Steps.

(** What holds of every state the callers can reach when the tenant has
    a row and its service key verifies: the key has one holder; a caller
    that is fetching has the key and the tenant is still uncached; as
    long as the tenant is uncached and nobody is fetching no query was
    made, and never more than one; and every settled caller holds the
    cached configuration. *)
Record inv (tenantId : string) (w0 : World) (row : TenantRow) (s : state) : Prop := {
  inv_tenants : tenants (world s) = tenants w0;
  inv_lock : ∀ i p, callers s !! i = Some p → holds_key p = true → lock s = Some i;
  inv_fetching : ∀ i p, callers s !! i = Some p → fetching p = true →
                        tenantConfigCache (world s) !! tenantId = None;
  inv_quiet : tenantConfigCache (world s) !! tenantId = None →
              (∀ i p, callers s !! i = Some p → fetching p = false) →
              store_queries tenantId (world s) = store_queries tenantId w0;
  inv_bound : (store_queries tenantId (world s) ≤ S (store_queries tenantId w0))%nat;
  inv_row : ∀ i row', callers s !! i = Some (Verifying row') → row' = row;
  inv_settled : ∀ i r, callers s !! i = Some (Settled r) →
                       ∃ c, r = Return c ∧
                            tenantConfigCache (world s) !! tenantId = Some c
}.

(** The suspensions a caller still has before it, at most. *)
Definition remaining (p : pc) : nat :=
  match p with
  | Called => 5
  | Queued => 4
  | Holding => 3
  | Selecting => 2
  | Verifying _ => 1
  | Settled _ => 0
  end.

Definition work (s : state) : nat := sum_list (remaining <$> callers s).

(** The key and its holder: a caller past [Queued] and not yet settled
    owns the key, and the key is owned by such a caller only. *)
Record lock_inv (s : state) : Prop := {
  held_by : ∀ i p, callers s !! i = Some p → holds_key p = true → lock s = Some i;
  holder : ∀ h, lock s = Some h → ∃ p, callers s !! h = Some p ∧ holds_key p = true
}.

End Race.

(** ** Vocabulary of the properties *)

(** The row [createS3Credentials] writes when it gets as far as the
    insert. *)
Definition created_row (cfg : Config) (lib : Collaborators) (tenantId description : string)
    (claims : option object) (w : World) : CredentialRow :=
  {| cr_id := row_id lib (length (tenants_s3_credentials w));
     tenant_id := tenantId;
     description := description;
     access_key := String.substring 0 32 (randomBytes_hex lib (draws w) 32);
     secret_key := encrypt lib (String.substring 0 64 (randomBytes_hex lib (S (draws w)) 64));
     cr_claims := credential_claims cfg tenantId claims |}.

(** What [batchSend] makes of one message: the data of the job is the
    payload itself, stamped where it had no version; nothing else is
    added to it, so it has a [region] only when the payload has. *)
Definition batch_job_of (cfg : Config) (c : EventClass) (m : EventClass * Payload)
    (j : JobInsert) : Prop :=
  ji_name j = queueName c ∧
  tenant (ji_data j) = tenant m.2 ∧
  (truthy (prop (props m.2) "$version") = true →
   props (ji_data j) !! "$version" = props m.2 !! "$version") ∧
  (truthy (prop (props m.2) "$version") = false →
   props (ji_data j) !! "$version" = Some (VStr (version c))) ∧
  (∀ k, k ≠ "$version" → props (ji_data j) !! k = props m.2 !! k) ∧
  (∀ t, props m.2 !! "scheduleAt" = Some (VDate t) →
        ji_options j !! "startAfter" = Some (VDate t)).

(** ** Sample instances *)

Definition sample_config : Config :=
  {| pgQueueEnable := true; region := "us-east-1"; isMultitenant := true;
     dbServiceRole := "service_role"; serviceKey := "sk"; jwtSecret := "secret" |}.

(** Collaborators that answer: the queue accepts every job. *)
Definition sample_lib : Collaborators :=
  {| decrypt := fun s => s;
     encrypt := fun s => s;
     verifyJWT := fun _ _ => Return {| role := "service_role" |};
     randomBytes_hex := fun _ n => String.concat "" (replicate n "ab");
     row_id := fun n => "cred-new";
     Date_parse := fun _ => None;
     Number_parse := fun _ => None;
     queue_send := fun _ => Return (VStr "job-1");
     queue_insert := fun _ => Return VNull |}.

(** The same with a queue that rejects every job. *)
Definition queue_down_lib : Collaborators :=
  {| decrypt := decrypt sample_lib;
     encrypt := encrypt sample_lib;
     verifyJWT := verifyJWT sample_lib;
     randomBytes_hex := randomBytes_hex sample_lib;
     row_id := row_id sample_lib;
     Date_parse := Date_parse sample_lib;
     Number_parse := Number_parse sample_lib;
     queue_send := fun _ => Throw (CollaboratorError "queue unreachable");
     queue_insert := fun _ => Throw (CollaboratorError "queue unreachable") |}.

Definition sample_row (disabled : option (list string)) : TenantRow :=
  {| anon_key := "anon"; database_url := "postgres://db"; file_size_limit := 1000;
     jwt_secret := "secret"; jwks := None; service_key := "service";
     feature_purge_cache := false; feature_image_transformation := true;
     feature_s3_protocol := true; image_transformation_max_resolution := None;
     database_pool_url := None; max_connections := None;
     migrations_version := None; migrations_status := None;
     tracing_mode := None; disable_events := disabled |}.

Definition empty_world : World :=
  {| tenantConfigCache := ∅; tenantS3CredentialsCache := ∅; tenants := ∅;
     tenants_s3_credentials := []; draws := 0; trace := [] |}.

(** Tenant [t1] has switched [Webhook] off, tenant [t2] has not. *)
Definition sample_world : World :=
  {| tenantConfigCache := ∅; tenantS3CredentialsCache := ∅;
     tenants := {[ "t1" := sample_row (Some ["Webhook"]); "t2" := sample_row None ]};
     tenants_s3_credentials := []; draws := 0; trace := [] |}.

Definition sample_credential (id : string) : CredentialRow :=
  {| cr_id := id; tenant_id := "t1"; description := "ci"; access_key := "AK";
     secret_key := "SK"; cr_claims := {[ "role" := VStr "authenticated" ]} |}.

(** A world in which [t1] owns [n] credentials. *)
Definition world_with_credentials (n : nat) : World :=
  {| tenantConfigCache := ∅; tenantS3CredentialsCache := ∅; tenants := ∅;
     tenants_s3_credentials := replicate n (sample_credential "c");
     draws := 0; trace := [] |}.

(** A world in which [t1] owns 50 credentials, each with an id and an
    access key of its own. *)
Definition tenant_at_limit : World :=
  {| tenantConfigCache := ∅; tenantS3CredentialsCache := ∅; tenants := ∅;
     tenants_s3_credentials :=
       (fun i => {| cr_id := "cred-" ++ pretty i; tenant_id := "t1";
                    description := "ci"; access_key := "AK" ++ pretty i;
                    secret_key := "SK"; cr_claims := {[ "role" := VStr "authenticated" ]} |})
       <$> seq 0 50;
     draws := 0; trace := [] |}.

(** A world in which the credential [c1] of [t1] is also cached. *)
Definition cached_credential_world : World :=
  {| tenantConfigCache := ∅;
     tenantS3CredentialsCache :=
       {[ "t1:AK" := {| accessKey := "AK"; secretKey := "SK";
                        claims := {[ "role" := VStr "authenticated" ]} |} ]};
     tenants := ∅;
     tenants_s3_credentials := [sample_credential "c1"];
     draws := 0; trace := [] |}.

Definition Webhook : EventClass :=
  {| eventName := "Webhook";
     version := "v1";
     queueName := "webhooks";
     allowSync := true;
     getQueueOptions := fun _ => None;
     withSlowRetryQueue := None;
     handle := fun _ => emit (Log "info" "webhook delivered") >> ret (VStr "delivered") |}.

(** An event type that declares a slow-retry policy. *)
Definition BackupObject : EventClass :=
  {| eventName := "BackupObject";
     version := "v1";
     queueName := "backup-object";
     allowSync := true;
     getQueueOptions := fun _ => None;
     withSlowRetryQueue := Some {| retryLimit := 5; retryDelay := 3600 |};
     handle := fun _ => ret VUndefined |}.

Definition sample_payload (tenantRef : string) (props : object) : Payload :=
  {| tenant := {| ref := tenantRef; host := "example.test" |}; props := props |}.

(** A caller that tries to choose every protected claim. *)
Definition forged_claims : object :=
  {[ "iss" := VStr "evil"; "issuer" := VStr "evil"; "exp" := VNum 0;
     "iat" := VNum 0; "role" := VStr "authenticated"; "team" := VStr "blue" ]}.

Definition scheduled_payload : Payload :=
  sample_payload "t2"
    {[ "$version" := VStr "v0"; "scheduleAt" := VDate (Some 1700000000000%Z);
       "bucketId" := VStr "avatars" ]}.

(** Three callers race for [t2]; the first goes all the way while the
    others wait for the key. *)
Definition race_schedule : list nat :=
  [0; 1; 2; 0; 1; 0; 2; 0; 0; 1; 1; 2; 2].

(** ** The accessors of [tenant.ts] *)

Record ServiceKeyUser : Type := {
  sku_jwt : string;
  sku_payload : ServiceKeyPayload;
  sku_jwtSecret : string
}.

Section TenantAccessors.
Context (cfg : Config) (lib : Collaborators).

(** [singleTenantServiceKey]: defined when the service is not multi-tenant. *)
Definition singleTenantServiceKey : option (string * ServiceKeyPayload) :=
  if negb (isMultitenant cfg)
  then Some (serviceKey cfg, {| role := dbServiceRole cfg |})
  else None.

(** [singleTenantServiceKey!.jwt] on [undefined] is a [TypeError]. *)
Definition getServiceKeyUser (tenantId : string) : M ServiceKeyUser :=
  if isMultitenant cfg then
    let* tenant := getTenantConfig lib tenantId in
    ret {| sku_jwt := tc_serviceKey tenant;
           sku_payload := serviceKeyPayload tenant;
           sku_jwtSecret := tc_jwtSecret tenant |}
  else
    match singleTenantServiceKey with
    | Some (jwt, payload) =>
        ret {| sku_jwt := jwt; sku_payload := payload; sku_jwtSecret := jwtSecret cfg |}
    | None => throw (JsError "TypeError: Cannot read properties of undefined (reading 'jwt')")
    end.

Definition getServiceKey (tenantId : string) : M string :=
  let* config := getTenantConfig lib tenantId in
  ret (tc_serviceKey config).

Definition getFileSizeLimit (tenantId : string) : M Z :=
  let* config := getTenantConfig lib tenantId in
  ret (fileSizeLimit config).

Definition getFeatures (tenantId : string) : M Features :=
  let* config := getTenantConfig lib tenantId in
  ret (features config).

End TenantAccessors.

(** ** Callers that are past the key *)

(** A caller counts once it has asked the store or has settled. *)
Definition past_the_key (p : Race.pc) : nat :=
  match p with
  | Race.Selecting | Race.Verifying _ | Race.Settled _ => 1
  | _ => 0
  end.

Definition asked (s : Race.state) : nat :=
  sum_list (past_the_key <$> Race.callers s).

(** ** The image renderer: transformation segments *)

Module ImageRenderer.
Import Stdlib.Strings.Ascii.

(** The numbers of the transformation options as
    [setTransformationsFromString] produces them: [parseInt] yields an
    integer, or [NaN] on text that is no number. Fractions, which only the
    plain setter can introduce, are left out. *)
Inductive number : Type :=
| NaN
| Num (z : Z).

(** Truthiness of an optional number: [undefined], [0] and [NaN] are
    falsy. *)
Definition given (n : option number) : bool :=
  match n with
  | Some (Num z) => negb (z =? 0)%Z
  | _ => false
  end.

Definition Math_max (a b : number) : number :=
  match a, b with
  | Num x, Num y => Num (Z.max x y)
  | _, _ => NaN
  end.

Definition Math_min (a b : number) : number :=
  match a, b with
  | Num x, Num y => Num (Z.min x y)
  | _, _ => NaN
  end.

Definition clamp (num min max : number) : number :=
  Math_min (Math_max num min) max.

Record TransformOptions : Type := {
  width : option number;
  height : option number;
  resize : option string;
  format : option string;
  quality : option number
}.

Definition no_options : TransformOptions :=
  {| width := None; height := None; resize := None; format := None; quality := None |}.

(** [imgLimits.size] of the configuration. *)
Record SizeLimits : Type := { size_min : number; size_max : number }.

(** [s.split(c)] for a separator of one character. *)
Fixpoint split (c : Ascii.ascii) (s : string) : list string :=
  match s with
  | EmptyString => [EmptyString]
  | String a s' =>
      if Ascii.eqb a c then EmptyString :: split c s'
      else
        match split c s' with
        | piece :: pieces => String a piece :: pieces
        | [] => [String a EmptyString]
        end
  end.

Section Renderer.
(** [Number_toString] is the text of a number in a template literal,
    [parseInt] is [parseInt(value, 10)], of a piece that may be missing. *)
Context (limits : SizeLimits)
        (Number_toString : number → string)
        (parseInt : option string → number).

Definition formatResizeType (resize : option string) : string :=
  match resize with
  | Some "cover" => "fill"
  | Some "contain" => "fit"
  | Some "fill" => "force"
  | _ => "fill"
  end.

(** A string or [undefined] in a template literal. *)
Definition template (s : option string) : string := default "undefined" s.

(** [segments.push(segment)] *)
Definition push (segments : list string) (segment : string) : list string :=
  (segments ++ [segment])%list.

Definition applyTransformation (options : TransformOptions) (keepOriginal : bool)
    : list string :=
  let segments := [] in
  let segments :=
    if given (height options) then
      push segments
        ("height:" ++ Number_toString
           (clamp (default NaN (height options)) (size_min limits) (size_max limits)))
    else segments in
  let segments :=
    if given (width options) then
      push segments
        ("width:" ++ Number_toString
           (clamp (default NaN (width options)) (size_min limits) (size_max limits)))
    else segments in
  let segments :=
    if given (width options) || given (height options) then
      if keepOriginal then push segments ("resize:" ++ template (resize options))
      else push segments ("resizing_type:" ++ formatResizeType (resize options))
    else segments in
  let segments :=
    if given (quality options) then
      push segments ("quality:" ++ Number_toString (default NaN (quality options)))
    else segments in
  let segments :=
    match format options with
    | Some f =>
        if negb (String.eqb f "") && negb (String.eqb f "origin")
        then push segments ("format:" ++ f)
        else segments
    | None => segments
    end in
  segments.

(** The callback of the [reduce] in [setTransformationsFromString]. *)
Definition set_param (all : TransformOptions) (param : string) : TransformOptions :=
  let pieces := split ":"%char param in
  let name := default "" (pieces !! 0%nat) in
  let value := pieces !! 1%nat in
  if String.eqb name "height" then
    {| width := width all; height := Some (parseInt value); resize := resize all;
       format := format all; quality := quality all |}
  else if String.eqb name "width" then
    {| width := Some (parseInt value); height := height all; resize := resize all;
       format := format all; quality := quality all |}
  else if String.eqb name "resize" then
    {| width := width all; height := height all; resize := value;
       format := format all; quality := quality all |}
  else if String.eqb name "format" then
    {| width := width all; height := height all; resize := resize all;
       format := value; quality := quality all |}
  else if String.eqb name "quality" then
    {| width := width all; height := height all; resize := resize all;
       format := format all; quality := Some (parseInt value) |}
  else all.

(** The options [setTransformationsFromString] stores. *)
Definition setTransformationsFromString (transformations : string) : TransformOptions :=
  let params := split ","%char transformations in
  fold_left set_param params no_options.

End Renderer.

(** Whether the character [c] occurs in [s]. *)
Fixpoint occurs (c : Ascii.ascii) (s : string) : bool :=
  match s with
  | EmptyString => false
  | String a s' => Ascii.eqb a c || occurs c s'
  end.

(** What a segment of [applyTransformation] can be, for limits [lo] and
    [hi]. *)
Definition segment_ok (show : number → string) (lo hi : Z) (segment : string) : Prop :=
  (∃ v, segment = "height:" ++ show (Num v) ∧ (lo ≤ v ≤ hi)%Z) ∨
  (∃ v, segment = "width:" ++ show (Num v) ∧ (lo ≤ v ≤ hi)%Z) ∨
  (∃ r, segment = "resize:" ++ r) ∨
  (∃ r, segment = "resizing_type:" ++ r ∧ (r = "fill" ∨ r = "fit" ∨ r = "force")) ∨
  (∃ q, segment = "quality:" ++ show (Num q) ∧ q ≠ 0%Z) ∨
  (∃ f, segment = "format:" ++ f ∧ f ≠ "" ∧ f ≠ "origin").

End ImageRenderer.

(** * Properties *)

Local Open Scope nat_scope.

(** ** Basic facts about the world *)

Lemma store_queries_record tenantId e w :
  store_queries tenantId (record e w) =
  (store_queries tenantId w + if is_tenant_query tenantId e then 1 else 0)%nat.
Proof.
  unfold store_queries, record; simpl.
  rewrite List.filter_app, List.length_app; simpl.
  destruct (is_tenant_query tenantId e); reflexivity.
Qed.

Lemma is_tenant_query_refl tenantId :
  is_tenant_query tenantId (StoreQuery "tenants" tenantId) = true.
Proof. simpl. apply String.eqb_refl. Qed.

Lemma eqb_empty_false (s : string) : s ≠ "" → String.eqb s "" = false.
Proof. intros H. apply String.eqb_neq. exact H. Qed.

(** Unfolding of the monadic operations. *)
Ltac unfold_M :=
  unfold bind, ret, throw, get, modify, emit, lift, tenantMutex,
    s3CredentialsMutex, createMutexByKey,
    try_catch, try_finally in *.

(** ** [getTenantConfig] *)

Lemma populateTenantConfig_throw_cache lib tenantId w e w' :
  populateTenantConfig lib tenantId w = (Throw e, w') →
  tenantConfigCache w' = tenantConfigCache w.
Proof.
  unfold populateTenantConfig, select_tenant; unfold_M; simpl.
  destruct (tenantConfigCache w !! tenantId); [intros [=]|].
  destruct (tenants w !! tenantId); simpl.
  - destruct (verifyJWT lib _ _); simpl; [intros [=]|].
    intros [= _ <-]. reflexivity.
  - intros [= _ <-]. reflexivity.
Qed.

(** C8. [getTenantConfig] fails with [InvalidTenantId] on the empty
    identifier, without touching the world; whenever it fails, the tenant
    config cache is the one it started with; and for a tenant that is not
    cached and has no row it fails with [MissingTenantConfig] after one
    store query, leaves the tenant uncached, and the next call for the same
    tenant queries the store again. *)
Theorem getTenantConfig_failures_not_cached (lib : Collaborators) (w : World)
    (tenantId : string) :
  getTenantConfig lib "" w = (Throw InvalidTenantId, w) ∧
  (∀ e w', getTenantConfig lib tenantId w = (Throw e, w') →
           tenantConfigCache w' = tenantConfigCache w) ∧
  (tenantId ≠ "" →
   tenantConfigCache w !! tenantId = None →
   tenants w !! tenantId = None →
   ∃ w1 w2,
     getTenantConfig lib tenantId w = (Throw (MissingTenantConfig tenantId), w1) ∧
     tenantConfigCache w1 = tenantConfigCache w ∧
     store_queries tenantId w1 = S (store_queries tenantId w) ∧
     getTenantConfig lib tenantId w1 = (Throw (MissingTenantConfig tenantId), w2) ∧
     tenantConfigCache w2 = tenantConfigCache w ∧
     store_queries tenantId w2 = S (store_queries tenantId w1)).
Proof.
  split; [reflexivity|]. split.
  - intros e w'. unfold getTenantConfig.
    destruct (String.eqb tenantId ""); unfold_M; simpl.
    + intros [= _ <-]. reflexivity.
    + destruct (tenantConfigCache w !! tenantId) eqn:Hc; [intros [=]|].
      apply populateTenantConfig_throw_cache.
  - intros Hne Hc Hrow.
    assert (Hcall : ∀ v, tenantConfigCache v = tenantConfigCache w →
                         tenants v = tenants w →
              getTenantConfig lib tenantId v =
              (Throw (MissingTenantConfig tenantId),
               record (StoreQuery "tenants" tenantId) v)).
    { intros v Hv Ht. unfold getTenantConfig, populateTenantConfig, select_tenant.
      rewrite (eqb_empty_false _ Hne). unfold_M; simpl.
      rewrite Hv, Hc. rewrite Hv, Hc. cbn. rewrite Ht, Hrow. reflexivity. }
    exists (record (StoreQuery "tenants" tenantId) w),
           (record (StoreQuery "tenants" tenantId)
                   (record (StoreQuery "tenants" tenantId) w)).
    repeat split.
    + apply Hcall; reflexivity.
    + rewrite store_queries_record, is_tenant_query_refl. lia.
    + apply Hcall; reflexivity.
    + rewrite store_queries_record, is_tenant_query_refl. lia.
Qed.

Lemma getTenantConfig_failures_not_cached_witness :
  ∃ w1 w2,
    getTenantConfig sample_lib "t3" sample_world = (Throw (MissingTenantConfig "t3"), w1) ∧
    tenantConfigCache w1 = tenantConfigCache sample_world ∧
    store_queries "t3" w1 = S (store_queries "t3" sample_world) ∧
    getTenantConfig sample_lib "t3" w1 = (Throw (MissingTenantConfig "t3"), w2) ∧
    tenantConfigCache w2 = tenantConfigCache sample_world ∧
    store_queries "t3" w2 = S (store_queries "t3" w1).
Proof.
  apply (getTenantConfig_failures_not_cached sample_lib sample_world "t3").
  - discriminate.
  - reflexivity.
  - reflexivity.
Defined.

(** ** S3 credentials *)

Lemma countS3Credentials_run lib tenantId w :
  countS3Credentials lib tenantId w =
  (Return (Some 0%Z), record (StoreQuery "tenants_s3_credentials" tenantId) w).
Proof. reflexivity. Qed.

Lemma createS3Credentials_room cfg lib tenantId description claims w :
  ∃ c w',
    createS3Credentials cfg lib tenantId description claims w = (Return c, w') ∧
    tenants_s3_credentials w' =
      (tenants_s3_credentials w ++ [created_row cfg lib tenantId description claims w])%list ∧
    cc_secret_key c = String.substring 0 64 (randomBytes_hex lib (S (draws w)) 64) ∧
    cc_access_key c = String.substring 0 32 (randomBytes_hex lib (draws w) 32).
Proof.
  unfold createS3Credentials, bind.
  rewrite countS3Credentials_run. cbn [at_least Z.leb Z.compare].
  eexists _, _. split; [reflexivity|]. repeat split.
Qed.

Lemma credential_count_app tenantId w w' r :
  tenants_s3_credentials w' = (tenants_s3_credentials w ++ [r])%list →
  tenant_id r = tenantId →
  credential_count tenantId w' = S (credential_count tenantId w).
Proof.
  intros Hrows Hr. unfold credential_count. rewrite Hrows, filter_app, length_app.
  rewrite filter_cons_True by (unfold of_tenant; rewrite Hr; apply String.eqb_refl).
  simpl. lia.
Qed.

(** C7 on the code. The count query is awaited without [.first()], so
    [data] is the array of its rows, [data?.count] is [undefined] and
    [countS3Credentials] answers [0] whatever the table holds. The guard
    [existingCount >= 50] of [createS3Credentials] therefore never fires:
    every call succeeds and gives the tenant one credential more, and a
    tenant that owns 50 credentials gets its 51st, where the claim has
    [MaximumCredentialsLimit] and nothing persisted. *)
Theorem createS3Credentials_limit_not_enforced :
  (∀ lib tenantId w,
     countS3Credentials lib tenantId w =
       (Return (Some 0%Z), record (StoreQuery "tenants_s3_credentials" tenantId) w)) ∧
  (∀ cfg lib tenantId description claims w,
     ∃ c w',
       createS3Credentials cfg lib tenantId description claims w = (Return c, w') ∧
       credential_count tenantId w' = S (credential_count tenantId w)) ∧
  credential_count "t1" tenant_at_limit = 50 ∧
  ∃ c w',
    createS3Credentials sample_config sample_lib "t1" "ci" None tenant_at_limit
      = (Return c, w') ∧
    credential_count "t1" w' = 51.
Proof.
  assert (Hone : ∀ cfg lib tenantId description claims w,
            ∃ c w',
              createS3Credentials cfg lib tenantId description claims w = (Return c, w') ∧
              credential_count tenantId w' = S (credential_count tenantId w)).
  { intros cfg lib tenantId description claims w.
    destruct (createS3Credentials_room cfg lib tenantId description claims w)
      as (c & w' & Hrun & Hrows & _).
    exists c, w'. split; [exact Hrun|].
    eapply credential_count_app; [exact Hrows|reflexivity]. }
  assert (Hfull : credential_count "t1" tenant_at_limit = 50).
  { vm_compute. reflexivity. }
  split; [intros; apply countS3Credentials_run|].
  split; [exact Hone|]. split; [exact Hfull|].
  destruct (Hone sample_config sample_lib "t1" "ci" None tenant_at_limit)
    as (c & w' & Hrun & Hcount).
  exists c, w'. split; [exact Hrun|]. rewrite Hcount, Hfull. reflexivity.
Qed.

Lemma persisted_claims_lookup (c : object) (k : string) (v : value) :
  c !! k = Some v → is_undefined v = false → persisted_claims c !! k = Some v.
Proof.
  intros Hk Hv. unfold persisted_claims.
  apply map_lookup_filter_Some. split; [exact Hk|exact Hv].
Qed.

Lemma persisted_claims_absent (c : object) (k : string) :
  c !! k = None → persisted_claims c !! k = None.
Proof.
  intros Hk. unfold persisted_claims.
  apply map_lookup_filter_None. left. exact Hk.
Qed.

Lemma strip_claims_lookup (c : object) (k : string) :
  k ≠ "iss" → k ≠ "issuer" → k ≠ "exp" → k ≠ "iat" →
  strip_claims c !! k = c !! k.
Proof.
  intros. unfold strip_claims.
  rewrite !lookup_delete_ne by congruence. reflexivity.
Qed.

Lemma strip_claims_gone (c : object) (k : string) :
  k = "iss" ∨ k = "issuer" ∨ k = "exp" ∨ k = "iat" →
  strip_claims c !! k = None.
Proof.
  unfold strip_claims. intros [-> | [-> | [-> | ->]]];
    repeat first [ apply lookup_delete_eq | rewrite lookup_delete_ne by discriminate ].
Qed.

Lemma opt_prop_strip (claims : option object) (k : string) :
  k ≠ "iss" → k ≠ "issuer" → k ≠ "exp" → k ≠ "iat" →
  opt_prop (strip_claims <$> claims) k = opt_prop claims k.
Proof.
  intros. destruct claims as [c|]; simpl; [|reflexivity].
  unfold prop. rewrite strip_claims_lookup by assumption. reflexivity.
Qed.

(** Server-assigned claims: what [credential_claims] holds under the
    names the caller may not choose. *)
Lemma credential_claims_server cfg tenantId claims :
  credential_claims cfg tenantId claims !! "iss" = None ∧
  credential_claims cfg tenantId claims !! "exp" = None ∧
  credential_claims cfg tenantId claims !! "iat" = None ∧
  credential_claims cfg tenantId claims !! "issuer" =
    Some (VStr ("supabase.storage." ++ tenantId)).
Proof.
  unfold credential_claims.
  repeat split;
    repeat first [ rewrite lookup_insert_eq | rewrite lookup_insert_ne by discriminate ];
    try reflexivity;
    (destruct claims as [c|]; simpl;
     [ apply strip_claims_gone; tauto | apply lookup_empty ]).
Qed.

Lemma credential_claims_role cfg tenantId claims :
  credential_claims cfg tenantId claims !! "role" =
  Some (if nullish (opt_prop claims "role") then VStr (dbServiceRole cfg)
        else opt_prop claims "role").
Proof.
  unfold credential_claims.
  rewrite lookup_insert_ne by discriminate.
  rewrite lookup_insert_ne by discriminate.
  rewrite lookup_insert_eq.
  rewrite opt_prop_strip by discriminate. reflexivity.
Qed.

Lemma createS3Credentials_inv cfg lib tenantId description claims w c w' :
  createS3Credentials cfg lib tenantId description claims w = (Return c, w') →
  tenants_s3_credentials w' =
    (tenants_s3_credentials w ++ [created_row cfg lib tenantId description claims w])%list.
Proof.
  intros Hrun.
  destruct (createS3Credentials_room cfg lib tenantId description claims w)
    as (c0 & w0 & Hrun0 & Hrows & _).
  rewrite Hrun0 in Hrun. injection Hrun as _ <-. exact Hrows.
Qed.

(** C6. When [createS3Credentials] persists a credential, the row it
    appends carries no [iss], [exp] or [iat] claim at all, and its [issuer]
    claim is ["supabase.storage."] followed by the tenant identifier,
    whatever the caller supplied under those four names. *)
Theorem createS3Credentials_server_assigned_claims (cfg : Config) (lib : Collaborators)
    (tenantId description : string) (claims : option object) (w w' : World)
    (c : CreatedCredential) :
  createS3Credentials cfg lib tenantId description claims w = (Return c, w') →
  ∃ row,
    tenants_s3_credentials w' = (tenants_s3_credentials w ++ [row])%list ∧
    tenant_id row = tenantId ∧
    persisted_claims (cr_claims row) !! "iss" = None ∧
    persisted_claims (cr_claims row) !! "exp" = None ∧
    persisted_claims (cr_claims row) !! "iat" = None ∧
    persisted_claims (cr_claims row) !! "issuer" =
      Some (VStr ("supabase.storage." ++ tenantId)).
Proof.
  intros Hrun. apply createS3Credentials_inv in Hrun.
  exists (created_row cfg lib tenantId description claims w).
  destruct (credential_claims_server cfg tenantId claims) as (Hiss & Hexp & Hiat & Hissuer).
  split; [exact Hrun|]. split; [reflexivity|]. simpl.
  repeat split; try (apply persisted_claims_absent; assumption).
  apply persisted_claims_lookup; [exact Hissuer|reflexivity].
Qed.

Lemma createS3Credentials_server_assigned_claims_witness :
  ∃ row,
    tenants_s3_credentials
      (createS3Credentials sample_config sample_lib "t1" "ci" (Some forged_claims)
         empty_world).2 = ([] ++ [row])%list ∧
    tenant_id row = "t1" ∧
    persisted_claims (cr_claims row) !! "iss" = None ∧
    persisted_claims (cr_claims row) !! "exp" = None ∧
    persisted_claims (cr_claims row) !! "iat" = None ∧
    persisted_claims (cr_claims row) !! "issuer" = Some (VStr "supabase.storage.t1").
Proof.
  eapply (createS3Credentials_server_assigned_claims sample_config sample_lib "t1" "ci"
            (Some forged_claims) empty_world).
  vm_compute. reflexivity.
Defined.

(** C10. When [createS3Credentials] persists a credential for a caller
    that gave no role (no claims object, no [role] property, or a nullish
    one), the persisted [role] claim is the configured database service
    role; a role the caller gave is persisted as given. *)
Theorem createS3Credentials_default_role (cfg : Config) (lib : Collaborators)
    (tenantId description : string) (claims : option object) (w w' : World)
    (c : CreatedCredential) :
  createS3Credentials cfg lib tenantId description claims w = (Return c, w') →
  ∃ row,
    tenants_s3_credentials w' = (tenants_s3_credentials w ++ [row])%list ∧
    (nullish (opt_prop claims "role") = true →
     persisted_claims (cr_claims row) !! "role" = Some (VStr (dbServiceRole cfg))) ∧
    (nullish (opt_prop claims "role") = false →
     persisted_claims (cr_claims row) !! "role" = Some (opt_prop claims "role")).
Proof.
  intros Hrun. apply createS3Credentials_inv in Hrun.
  exists (created_row cfg lib tenantId description claims w).
  split; [exact Hrun|]. simpl.
  pose proof (credential_claims_role cfg tenantId claims) as Hrole.
  split; intros Hn; rewrite Hn in Hrole.
  - apply persisted_claims_lookup; [exact Hrole|reflexivity].
  - apply persisted_claims_lookup; [exact Hrole|].
    destruct (opt_prop claims "role"); try reflexivity; discriminate.
Qed.

Lemma createS3Credentials_default_role_witness :
  (∃ row,
     tenants_s3_credentials
       (createS3Credentials sample_config sample_lib "t1" "ci" None empty_world).2
       = ([] ++ [row])%list ∧
     persisted_claims (cr_claims row) !! "role" = Some (VStr "service_role")) ∧
  (∃ row,
     tenants_s3_credentials
       (createS3Credentials sample_config sample_lib "t1" "ci" (Some forged_claims)
          empty_world).2 = ([] ++ [row])%list ∧
     persisted_claims (cr_claims row) !! "role" = Some (VStr "authenticated")).
Proof.
  split.
  - edestruct (createS3Credentials_default_role sample_config sample_lib "t1" "ci" None
                 empty_world) as (row & Hrows & Hdefault & _).
    { vm_compute. reflexivity. }
    exists row. split; [exact Hrows|]. apply Hdefault. reflexivity.
  - edestruct (createS3Credentials_default_role sample_config sample_lib "t1" "ci"
                 (Some forged_claims) empty_world) as (row & Hrows & _ & Hkept).
    { vm_compute. reflexivity. }
    exists row. split; [exact Hrows|]. apply Hkept. vm_compute. reflexivity.
Defined.

(** C5 (as the code has it). [deleteS3Credential] returns the ids of the
    rows of the tenant with that id and removes exactly those rows; it
    leaves both caches as they are and publishes nothing. The cached copy
    goes when a message with its key arrives on the credentials channel at
    the subscriber of [listenForTenantUpdate]. *)
Theorem deleteS3Credential_store_only (tenantId credentialId : string) (w : World) :
  ∃ w',
    deleteS3Credential tenantId credentialId w =
      (Return (cr_id <$> filter (fun r => is_credential tenantId credentialId r = true)
                                (tenants_s3_credentials w)), w') ∧
    tenants_s3_credentials w' =
      filter (fun r => is_credential tenantId credentialId r = false)
             (tenants_s3_credentials w) ∧
    tenantS3CredentialsCache w' = tenantS3CredentialsCache w ∧
    tenantConfigCache w' = tenantConfigCache w ∧
    List.filter is_publish (trace w') = List.filter is_publish (trace w) ∧
    ∀ key,
      tenantS3CredentialsCache
        (onTenantUpdate TENANTS_S3_CREDENTIALS_UPDATE_CHANNEL key w').2 !! key = None.
Proof.
  eexists. split; [reflexivity|]. simpl. repeat split.
  - rewrite List.filter_app. simpl. apply app_nil_r.
  - intros key. apply lookup_delete_eq.
Qed.

(** C5 as stated fails: after deleting the credential [c1] of [t1] the
    row is gone, yet the cached copy under [t1:AK] is still there and
    nothing was published. *)
Lemma deleteS3Credential_keeps_cache :
  let w' := (deleteS3Credential "t1" "c1" cached_credential_world).2 in
  (deleteS3Credential "t1" "c1" cached_credential_world).1 = Return ["c1"] ∧
  tenants_s3_credentials w' = [] ∧
  ¬ (tenantS3CredentialsCache w' !! cacheKey "t1" "AK" = None ∧
     Exists (fun e => is_publish e = true) (trace w')).
Proof.
  split; [vm_compute; reflexivity|]. split; [vm_compute; reflexivity|].
  intros [Hgone _]. vm_compute in Hgone. discriminate.
Qed.

(** ** Event dispatch *)

Lemma dispatches_record e w :
  dispatches (record e w) =
  (dispatches w ++ if is_dispatch e then [e] else [])%list.
Proof.
  unfold dispatches, record; simpl. rewrite List.filter_app. simpl.
  destruct (is_dispatch e); reflexivity.
Qed.

Lemma getTenantConfig_dispatches lib tenantId w r w' :
  getTenantConfig lib tenantId w = (r, w') → dispatches w' = dispatches w.
Proof.
  unfold getTenantConfig, populateTenantConfig, select_tenant.
  destruct (String.eqb tenantId ""); unfold_M; simpl.
  { intros [= _ <-]; reflexivity. }
  destruct (tenantConfigCache w !! tenantId) eqn:Hc; rewrite ?Hc.
  { intros [= _ <-]; reflexivity. }
  cbn. destruct (tenants w !! tenantId); cbn.
  - destruct (verifyJWT lib _ _); intros [= _ <-];
      unfold dispatches; simpl; rewrite List.filter_app; simpl; apply app_nil_r.
  - intros [= _ <-]. unfold dispatches; simpl; rewrite List.filter_app; simpl; apply app_nil_r.
Qed.

Lemma getQueueName_set c w :
  queueName c ≠ "" → getQueueName c w = (Return (queueName c), w).
Proof.
  intros H. unfold getQueueName. rewrite (eqb_empty_false _ H). reflexivity.
Qed.

(** C2. In multi-tenant mode, when the configuration of the payload's
    tenant lists the event name in [disableEvents], [send] returns
    [undefined] without throwing, and the world it leaves is the one the
    tenant lookup of the suppression check left: nothing was sent to the
    queue and no handler ran. *)
Theorem send_suppressed (cfg : Config) (lib : Collaborators) (c : EventClass)
    (payload : Payload) (w w1 : World) (tenantConfig : TenantConfig) :
  isMultitenant cfg = true →
  getTenantConfig lib (ref (tenant payload)) w = (Return tenantConfig, w1) →
  eventName c ∈ default [] (disableEvents tenantConfig) →
  send cfg lib c payload w = (Return VUndefined, w1) ∧
  dispatches w1 = dispatches w.
Proof.
  intros Hmulti Hget Hin. split.
  - unfold send, shouldSend, bind. rewrite Hmulti, Hget.
    rewrite bool_decide_eq_true_2 by exact Hin. reflexivity.
  - eapply getTenantConfig_dispatches. exact Hget.
Qed.

Lemma send_suppressed_witness :
  ∃ w1,
    send sample_config sample_lib Webhook (sample_payload "t1" ∅) sample_world
      = (Return VUndefined, w1) ∧
    dispatches w1 = dispatches sample_world.
Proof.
  eexists.
  eapply (send_suppressed sample_config sample_lib Webhook (sample_payload "t1" ∅)
            sample_world).
  - reflexivity.
  - vm_compute. reflexivity.
  - vm_compute. apply list_elem_of_here.
Defined.

(** C1. With the queue enabled and the suppression check passed, when the
    queue rejects the job, [send] runs the handler of the event type on the
    envelope with id ['__sync'], the queue name and the very [data] of
    the rejected job, and the outcome of [send] is the outcome of that
    handler: the failure of the queue does not reach the caller. *)
Theorem send_falls_back_when_enqueue_fails (cfg : Config) (lib : Collaborators)
    (c : EventClass) (payload : Payload) (w w1 : World) (e : error) :
  pgQueueEnable cfg = true →
  queueName c ≠ "" →
  shouldSend cfg lib c payload w = (Return true, w1) →
  let job := {| name := queueName c; data := envelope cfg c payload;
                options := sendOptions_of lib c payload |} in
  let sync := {| job_id := "__sync"; job_name := name job; job_data := data job |} in
  let w2 :=
    record (Handle (eventName c) sync)
      (record (Log "warning"
                 "[Queue Sender] Error while sending job to queue, sending synchronously")
         (record (QueueSend job) w1)) in
  queue_send lib job = Throw e →
  send cfg lib c payload w =
    ((handle c sync w2).1,
     record (Metric "QueueJobSchedulingTime" (queueName c)) (handle c sync w2).2).
Proof.
  intros Hq Hname Hshould job sync w2 Hfail.
  unfold send, bind. rewrite Hshould, Hq. simpl.
  unfold try_finally, try_catch, handle_sync, bind, emit, modify, lift.
  rewrite !(getQueueName_set c) by exact Hname.
  fold job. rewrite Hfail. rewrite !(getQueueName_set c) by exact Hname.
  subst w2 sync job. simpl.
  destruct (handle c _ _) as [r w3]; simpl.
  rewrite (getQueueName_set c) by exact Hname. reflexivity.
Qed.

Lemma send_falls_back_when_enqueue_fails_witness :
  send sample_config queue_down_lib Webhook (sample_payload "t2" ∅) sample_world
  = (Return (VStr "delivered"),
     (send sample_config queue_down_lib Webhook (sample_payload "t2" ∅) sample_world).2)
  ∧ dispatches
      (send sample_config queue_down_lib Webhook (sample_payload "t2" ∅) sample_world).2
    = [ QueueSend {| name := "webhooks";
                     data := envelope sample_config Webhook (sample_payload "t2" ∅);
                     options := None |};
        Handle "Webhook" {| job_id := "__sync"; job_name := "webhooks";
                            job_data := envelope sample_config Webhook
                                          (sample_payload "t2" ∅) |} ].
Proof.
  rewrite (send_falls_back_when_enqueue_fails sample_config queue_down_lib Webhook
             (sample_payload "t2" ∅) sample_world
             (getTenantConfig sample_lib "t2" sample_world).2
             (CollaboratorError "queue unreachable")).
  - split; vm_compute; reflexivity.
  - reflexivity.
  - discriminate.
  - vm_compute. reflexivity.
  - reflexivity.
Defined.

Lemma envelope_version cfg c payload :
  props (envelope cfg c payload) !! "$version" = Some (VStr (version c)).
Proof. simpl. apply lookup_insert_eq. Qed.

Lemma envelope_region cfg c payload :
  props (envelope cfg c payload) !! "region" =
  Some (default (VStr (region cfg)) (props payload !! "region")).
Proof.
  simpl. rewrite lookup_insert_ne by discriminate.
  rewrite lookup_union, lookup_singleton_eq.
  destruct (props payload !! "region"); reflexivity.
Qed.

Lemma envelope_other cfg c payload k :
  k ≠ "$version" → k ≠ "region" →
  props (envelope cfg c payload) !! k = props payload !! k.
Proof.
  intros Hv Hr. simpl. rewrite lookup_insert_ne by congruence.
  rewrite lookup_union, lookup_singleton_ne by congruence.
  destruct (props payload !! k); reflexivity.
Qed.

Lemma sendOptions_of_startAfter lib c payload t :
  props payload !! "scheduleAt" = Some (VDate t) →
  ∃ o, sendOptions_of lib c payload = Some o ∧ o !! "startAfter" = Some (VDate t).
Proof.
  intros H. unfold sendOptions_of, prop. rewrite H. simpl.
  eexists. split; [reflexivity|]. apply lookup_insert_eq.
Qed.

Lemma stamp_version_other c payload k :
  k ≠ "$version" → props (stamp_version c payload) !! k = props payload !! k.
Proof.
  intros H. unfold stamp_version.
  destruct (truthy (prop (props payload) "$version")); simpl; [reflexivity|].
  apply lookup_insert_ne. congruence.
Qed.

Lemma batch_job_run cfg lib c m w :
  queueName c ≠ "" →
  ∃ j, batch_job lib c m.2 w = (Return j, w) ∧ batch_job_of cfg c m j.
Proof.
  intros Hname. unfold batch_job, bind.
  rewrite (getQueueName_set c) by exact Hname.
  eexists. split; [reflexivity|]. unfold batch_job_of; simpl.
  split; [reflexivity|]. split.
  { unfold stamp_version. destruct (truthy _); reflexivity. }
  split.
  { intros Ht. unfold stamp_version. rewrite Ht. reflexivity. }
  split.
  { intros Ht. unfold stamp_version. rewrite Ht. simpl. apply lookup_insert_eq. }
  split.
  { intros k Hk. apply stamp_version_other. exact Hk. }
  intros t Ht. unfold prop.
  rewrite stamp_version_other by discriminate. rewrite Ht. simpl.
  apply lookup_insert_eq.
Qed.

Lemma batch_jobs_run cfg lib c messages w :
  queueName c ≠ "" →
  ∃ jobs, map_M (fun m => batch_job lib c m.2) messages w = (Return jobs, w) ∧
          Forall2 (batch_job_of cfg c) messages jobs.
Proof.
  intros Hname. induction messages as [|m messages IH]; simpl.
  - exists []. split; [reflexivity|constructor].
  - destruct (batch_job_run cfg lib c m w Hname) as (j & Hj & Hof).
    destruct IH as (jobs & Hjobs & Hall).
    exists (j :: jobs). unfold bind. rewrite Hj, Hjobs.
    split; [reflexivity|]. constructor; assumption.
Qed.

(** What [send] and [batchSend] hand the queue, with the queue enabled
    and a queue name set. [send], once the suppression check has passed,
    gives the queue a job whose data is the payload with the region tag
    added (a [region] of the payload itself stays) and with [$version] set
    to the version tag of the event type, whether or not the payload had
    one, and returns the answer of the queue. [batchSend] inserts one job
    per message whose data is the payload of the message, with [$version]
    set to the version tag of the event type only where the payload had
    none (or an empty one) and with no region added. In both a
    [scheduleAt] date of the payload is the [startAfter] option of the
    job. *)
Lemma queue_envelope (cfg : Config) (lib : Collaborators) (c : EventClass) :
  pgQueueEnable cfg = true →
  queueName c ≠ "" →
  (∀ payload w w1,
     shouldSend cfg lib c payload w = (Return true, w1) →
     let job := {| name := queueName c; data := envelope cfg c payload;
                   options := sendOptions_of lib c payload |} in
     (∀ res, queue_send lib job = Return res →
        send cfg lib c payload w =
          (Return res,
           record (Metric "QueueJobSchedulingTime" (queueName c))
             (record (Metric "QueueJobScheduled" (queueName c))
                (record (QueueSend job) w1)))) ∧
     tenant (data job) = tenant payload ∧
     props (data job) !! "$version" = Some (VStr (version c)) ∧
     props (data job) !! "region" =
       Some (default (VStr (region cfg)) (props payload !! "region")) ∧
     (∀ k, k ≠ "$version" → k ≠ "region" →
           props (data job) !! k = props payload !! k) ∧
     (∀ t, props payload !! "scheduleAt" = Some (VDate t) →
           ∃ o, options job = Some o ∧ o !! "startAfter" = Some (VDate t))) ∧
  (∀ messages w,
     ∃ jobs,
       batchSend cfg lib c messages w =
         (match queue_insert lib jobs with
          | Return v => Return (Plain v)
          | Throw e => Throw e
          end, record (QueueInsert jobs) w) ∧
       Forall2 (batch_job_of cfg c) messages jobs).
Proof.
  intros Hq Hname. split.
  - intros payload w w1 Hshould job. split; [|split; [|split; [|split; [|split]]]].
    + intros res Hres. unfold send, bind. rewrite Hshould, Hq. simpl.
      unfold try_finally, try_catch, bind, emit, modify, lift.
      rewrite !(getQueueName_set c) by exact Hname.
      fold job. rewrite Hres. simpl.
      repeat (rewrite (getQueueName_set c) by exact Hname; simpl).
      reflexivity.
    + reflexivity.
    + apply envelope_version.
    + apply envelope_region.
    + apply envelope_other.
    + apply sendOptions_of_startAfter.
  - intros messages w.
    destruct (batch_jobs_run cfg lib c messages w Hname) as (jobs & Hjobs & Hall).
    exists jobs. split; [|exact Hall].
    unfold batchSend, bind. rewrite Hq. simpl. rewrite Hjobs.
    unfold emit, modify, lift, ret.
    destruct (queue_insert lib jobs); reflexivity.
Qed.

(** C3 on the code, at a payload that carries its own [$version] ["v0"]
    and a [scheduleAt] date, for an event type whose version tag is
    ["v1"]. The claim holds of the delayed start: in [send] and in
    [batchSend] the date is the [startAfter] option of the job. It fails
    of the version and of the region. The guard of the static [send]
    leaves the caller's ["v0"] in place and [batchSend] hands it to the
    queue, but the envelope of [send] carries ["v1"]: the caller's tag is
    overwritten. And the job of [send] carries the region tag while the
    job [batchSend] inserts for the same payload has none. *)
Theorem queue_envelope_diverges :
  props scheduled_payload !! "$version" = Some (VStr "v0") ∧
  props (stamp_version Webhook scheduled_payload) !! "$version" = Some (VStr "v0") ∧
  (∃ job o,
     send sample_config sample_lib Webhook scheduled_payload sample_world =
       (Return (VStr "job-1"),
        record (Metric "QueueJobSchedulingTime" "webhooks")
          (record (Metric "QueueJobScheduled" "webhooks")
             (record (QueueSend job)
                (getTenantConfig sample_lib "t2" sample_world).2))) ∧
     static_send sample_config sample_lib Webhook scheduled_payload sample_world =
       send sample_config sample_lib Webhook scheduled_payload sample_world ∧
     props (data job) !! "$version" = Some (VStr "v1") ∧
     props (data job) !! "region" = Some (VStr "us-east-1") ∧
     props (data job) !! "bucketId" = Some (VStr "avatars") ∧
     options job = Some o ∧
     o !! "startAfter" = Some (VDate (Some 1700000000000%Z))) ∧
  (∃ j,
     batchSend sample_config sample_lib Webhook [(Webhook, scheduled_payload)]
       sample_world =
       (Return (Plain VNull), record (QueueInsert [j]) sample_world) ∧
     props (ji_data j) !! "$version" = Some (VStr "v0") ∧
     props (ji_data j) !! "region" = None ∧
     props (ji_data j) !! "bucketId" = Some (VStr "avatars") ∧
     ji_options j !! "startAfter" = Some (VDate (Some 1700000000000%Z))).
Proof.
  destruct (queue_envelope sample_config sample_lib Webhook) as [Hsend Hbatch];
    [reflexivity|discriminate|].
  split; [vm_compute; reflexivity|]. split; [vm_compute; reflexivity|]. split.
  - destruct (Hsend scheduled_payload sample_world
                (getTenantConfig sample_lib "t2" sample_world).2)
      as (Hrun & _ & Hversion & Hregion & Hother & Hstart).
    { vm_compute. reflexivity. }
    destruct (Hstart (Some 1700000000000%Z)) as (o & Hopt & Ho).
    { vm_compute. reflexivity. }
    eexists _, o. split; [apply Hrun; reflexivity|].
    split; [reflexivity|]. split; [exact Hversion|].
    split; [exact Hregion|]. split; [|split; [exact Hopt|exact Ho]].
    rewrite Hother by discriminate. vm_compute. reflexivity.
  - destruct (Hbatch [(Webhook, scheduled_payload)] sample_world) as (jobs & Hrun & Hall).
    apply Forall2_cons_inv_l in Hall as (j & rest & Hj & Hrest & ->).
    apply Forall2_nil_inv_l in Hrest as ->.
    destruct Hj as (_ & _ & Hkept & _ & Hother & Hstart).
    exists j. split; [rewrite Hrun; reflexivity|].
    split; [rewrite Hkept by (vm_compute; reflexivity); vm_compute; reflexivity|].
    split; [rewrite Hother by discriminate; vm_compute; reflexivity|].
    split; [rewrite Hother by discriminate; vm_compute; reflexivity|].
    apply Hstart. vm_compute. reflexivity.
Qed.

(** ** The slow-retry queue *)

Lemma slow_retry_options_policy sendOptions o :
  slow_retry_options sendOptions o !! "retryLimit" = Some (VNum (retryLimit o)) ∧
  slow_retry_options sendOptions o !! "retryDelay" = Some (VNum (retryDelay o)).
Proof.
  unfold slow_retry_options.
  split; (erewrite lookup_union_Some_l; [reflexivity|]); vm_compute; reflexivity.
Qed.

Lemma slow_retry_options_defaults sendOptions o :
  sendOptions !! "retryBackoff" = None →
  sendOptions !! "startAfter" = None →
  slow_retry_options sendOptions o !! "retryBackoff" = Some (VBool true) ∧
  slow_retry_options sendOptions o !! "startAfter" = Some (VNum 108000).
Proof.
  intros Hb Hs. unfold slow_retry_options.
  split; (rewrite lookup_union_r by (vm_compute; reflexivity)).
  - rewrite lookup_union_r by exact Hb. vm_compute; reflexivity.
  - rewrite lookup_union_r by exact Hs. vm_compute; reflexivity.
Qed.

(** What [sendSlowRetryQueue] gives the queue, for any event type with a
    slow-retry policy. *)
Lemma sendSlowRetryQueue_enqueues cfg lib c payload w policy :
  pgQueueEnable cfg = true →
  queueName c ≠ "" →
  withSlowRetryQueue c = Some policy →
  let job := {| name := queueName c ++ "-slow"; data := envelope cfg c payload;
                options := Some (slow_retry_options
                                   (default ∅ (getQueueOptions c payload)) policy) |} in
  ∀ res, queue_send lib job = Return res →
    sendSlowRetryQueue cfg lib c payload w =
      (Return res,
       record (Metric "QueueJobScheduled" (queueName c ++ "-slow"))
         (record (Metric "QueueJobSchedulingTime" (queueName c ++ "-slow"))
            (record (QueueSend job) w))).
Proof.
  intros Hq Hname Hpolicy job res Hres.
  unfold sendSlowRetryQueue, getSlowRetryQueueName, bind, emit, modify, lift, ret.
  rewrite Hpolicy, Hq, (eqb_empty_false _ Hname). simpl.
  fold job. rewrite Hres. reflexivity.
Qed.

(** C4 at an event type with a slow-retry policy and no queue options of
    its own: the job goes to the queue named with the suffix ["-slow"],
    with [retryBackoff] set and the fields of the policy, but its default
    [startAfter] is [60 * 60 * 30 = 108000], sixty times the 1800 seconds
    that make thirty minutes. *)
Theorem sendSlowRetryQueue_default_delay :
  ∃ job o,
    sendSlowRetryQueue sample_config sample_lib BackupObject (sample_payload "t1" ∅)
      empty_world
    = (Return (VStr "job-1"),
       record (Metric "QueueJobScheduled" "backup-object-slow")
         (record (Metric "QueueJobSchedulingTime" "backup-object-slow")
            (record (QueueSend job) empty_world))) ∧
    name job = "backup-object-slow" ∧
    options job = Some o ∧
    o !! "retryBackoff" = Some (VBool true) ∧
    o !! "retryLimit" = Some (VNum 5) ∧
    o !! "retryDelay" = Some (VNum 3600) ∧
    o !! "startAfter" = Some (VNum 108000) ∧
    (108000 = 60 * (30 * 60))%Z ∧
    o !! "startAfter" ≠ Some (VNum (30 * 60)).
Proof.
  eexists _, _. split.
  { apply (sendSlowRetryQueue_enqueues sample_config sample_lib BackupObject
             (sample_payload "t1" ∅) empty_world {| retryLimit := 5; retryDelay := 3600 |});
      [reflexivity|discriminate|reflexivity|reflexivity]. }
  split; [reflexivity|]. split; [reflexivity|].
  destruct (slow_retry_options_policy ∅ {| retryLimit := 5; retryDelay := 3600 |})
    as [Hlimit Hdelay].
  destruct (slow_retry_options_defaults ∅ {| retryLimit := 5; retryDelay := 3600 |})
    as [Hbackoff Hstart]; [reflexivity|reflexivity|].
  simpl. split; [exact Hbackoff|]. split; [exact Hlimit|]. split; [exact Hdelay|].
  split; [exact Hstart|]. split; [reflexivity|].
  rewrite Hstart. discriminate.
Qed.

(** ** Racing callers of [getTenantConfig] *)

Module RaceFacts.
Import Race.

Lemma lookup_moved (l : list pc) (i j : nat) (p0 p q : pc) :
  l !! i = Some p0 →
  <[i := p]> l !! j = Some q →
  (j = i ∧ q = p) ∨ (j ≠ i ∧ l !! j = Some q).
Proof.
  intros Hi Hj. destruct (decide (j = i)) as [->|Hne].
  - left. split; [reflexivity|].
    rewrite list_lookup_insert_eq in Hj by (eapply lookup_lt_Some; exact Hi).
    congruence.
  - right. split; [exact Hne|].
    rewrite list_lookup_insert_ne in Hj by congruence. exact Hj.
Qed.

Lemma fetching_holds_key p : fetching p = true → holds_key p = true.
Proof. destruct p; simpl; congruence. Qed.

Section Invariant.
Context (lib : Collaborators) (tenantId : string) (w0 : World)
        (row : TenantRow) (payload : ServiceKeyPayload).
Hypothesis Hid : tenantId ≠ "".
Hypothesis Hrow : tenants w0 !! tenantId = Some row.
Hypothesis Hjwt :
  verifyJWT lib (decrypt lib (service_key row)) (decrypt lib (jwt_secret row))
  = Return payload.

Lemma inv_init n : inv tenantId w0 row (init n w0).
Proof.
  split; simpl; try reflexivity; try lia;
    intros i p Hi; apply lookup_replicate in Hi as [Heq _];
    try discriminate; subst p; discriminate.
Qed.

(** The holder of the key is the only caller that can be fetching. *)
Lemma only_holder_fetches s i p :
  inv tenantId w0 row s →
  callers s !! i = Some p → holds_key p = true → fetching p = false →
  ∀ j q, callers s !! j = Some q → fetching q = false.
Proof.
  intros Hinv Hi Hhold Hnot j q Hj.
  destruct (fetching q) eqn:Hq; [|reflexivity].
  pose proof (inv_lock _ _ _ _ Hinv i p Hi Hhold) as Hli.
  pose proof (inv_lock _ _ _ _ Hinv j q Hj (fetching_holds_key _ Hq)) as Hlj.
  assert (j = i) as -> by congruence.
  congruence.
Qed.

(** A hypothesis on the callers after caller [i] has moved is one on
    the new place of [i] or one on the callers before. *)
Ltac split_moved Hi :=
  match goal with
  | Hj : <[_ := _]> _ !! _ = Some _ |- _ =>
      let Heq := fresh "Heq" in
      let Hne := fresh "Hne" in
      let Hold := fresh "Hold" in
      destruct (lookup_moved _ _ _ _ _ _ Hi Hj) as [[-> Heq]|[Hne Hold]];
      clear Hj;
      [ try discriminate Heq; try (injection Heq as ->); try subst | ]
  end.

Ltac field Hinv Hi :=
  unfold move, release; simpl; intros; try split_moved Hi; simpl in *;
  try discriminate; try congruence;
  eauto using inv_tenants, inv_lock, inv_fetching, inv_bound, inv_row, inv_settled.

Lemma quiet_before (l : list pc) (i : nat) (p0 p : pc) :
  l !! i = Some p0 → fetching p0 = false →
  (∀ j q, <[i := p]> l !! j = Some q → fetching q = false) →
  ∀ j q, l !! j = Some q → fetching q = false.
Proof.
  intros Hi Hp0 Hquiet j q Hj. destruct (decide (j = i)) as [->|Hne].
  - congruence.
  - apply (Hquiet j). rewrite list_lookup_insert_ne by congruence. exact Hj.
Qed.

Lemma not_quiet (l : list pc) (i : nat) (p0 p : pc) :
  l !! i = Some p0 → fetching p = true →
  ¬ (∀ j q, <[i := p]> l !! j = Some q → fetching q = false).
Proof.
  intros Hi Hp Hquiet. specialize (Hquiet i p).
  rewrite list_lookup_insert_eq in Hquiet by (eapply lookup_lt_Some; exact Hi).
  specialize (Hquiet eq_refl). congruence.
Qed.

Lemma inv_step i s s' :
  inv tenantId w0 row s → step lib tenantId i s = Some s' → inv tenantId w0 row s'.
Proof.
  intros Hinv. unfold step.
  destruct (callers s !! i) as [p|] eqn:Hi; [|discriminate].
  destruct p as [ | | | |row'|r].
  - (* Called *)
    rewrite (eqb_empty_false _ Hid).
    destruct (tenantConfigCache (world s) !! tenantId) as [c|] eqn:Hc;
      intros [= <-]; split; try solve [field Hinv Hi].
    unfold move; simpl. intros Hnone Hquiet.
    apply (inv_quiet _ _ _ _ Hinv Hnone).
    eapply quiet_before; [exact Hi|reflexivity|exact Hquiet].
  - (* Queued *)
    destruct (lock s) eqn:Hlock; [discriminate|].
    intros [= <-]; split; try solve [field Hinv Hi].
    + unfold release; simpl. intros j q Hj Hq.
      destruct (lookup_moved _ _ _ _ _ _ Hi Hj) as [[-> Heq]|[Hne Hold]].
      * try reflexivity; subst q; discriminate.
      * pose proof (inv_lock _ _ _ _ Hinv j q Hold Hq) as Hl. congruence.
    + simpl. intros Hnone Hquiet.
      apply (inv_quiet _ _ _ _ Hinv Hnone).
      eapply quiet_before; [exact Hi|reflexivity|exact Hquiet].
  - (* Holding *)
    pose proof (inv_lock _ _ _ _ Hinv i Holding Hi eq_refl) as Hli.
    pose proof (only_holder_fetches s i Holding Hinv Hi eq_refl eq_refl) as Hquiet0.
    destruct (tenantConfigCache (world s) !! tenantId) as [c|] eqn:Hc;
      intros [= <-]; split; try solve [field Hinv Hi].
    + unfold release; simpl. intros j q Hj Hq.
      destruct (lookup_moved _ _ _ _ _ _ Hi Hj) as [[-> Heq]|[Hne Hold]].
      * try reflexivity; subst q; discriminate.
      * pose proof (inv_lock _ _ _ _ Hinv j q Hold Hq) as Hl. congruence.
    + simpl. intros _ Hquiet. exfalso.
      eapply not_quiet; [exact Hi| |exact Hquiet]. reflexivity.
    + simpl. rewrite store_queries_record, is_tenant_query_refl.
      rewrite (inv_quiet _ _ _ _ Hinv Hc Hquiet0). lia.
  - (* Selecting *)
    rewrite (inv_tenants _ _ _ _ Hinv), Hrow.
    intros [= <-]; split; try solve [field Hinv Hi].
    unfold move; simpl. intros _ Hquiet. exfalso.
    eapply not_quiet; [exact Hi| |exact Hquiet]. reflexivity.
  - (* Verifying *)
    pose proof (inv_row _ _ _ _ Hinv i row' Hi) as ->.
    pose proof (inv_lock _ _ _ _ Hinv i _ Hi eq_refl) as Hli.
    pose proof (inv_fetching _ _ _ _ Hinv i _ Hi eq_refl) as Hnone.
    rewrite Hjwt. intros [= <-]; split; try solve [field Hinv Hi].
    + unfold release; simpl. intros j q Hj Hq.
      destruct (lookup_moved _ _ _ _ _ _ Hi Hj) as [[-> Heq]|[Hne Hold]].
      * subst q; discriminate.
      * pose proof (inv_lock _ _ _ _ Hinv j q Hold Hq) as Hl. congruence.
    + unfold release; simpl. intros j q Hj Hq.
      destruct (lookup_moved _ _ _ _ _ _ Hi Hj) as [[-> Heq]|[Hne Hold]].
      * subst q; discriminate.
      * pose proof (inv_lock _ _ _ _ Hinv j q Hold (fetching_holds_key _ Hq)) as Hl.
        congruence.
    + unfold release; simpl. rewrite lookup_insert_eq. discriminate.
    + unfold release, store_queries; simpl. apply (inv_bound _ _ _ _ Hinv).
    + unfold release; simpl. intros j r Hj. rewrite lookup_insert_eq. simpl.
      destruct (lookup_moved _ _ _ _ _ _ Hi Hj) as [[-> Heq]|[Hne Hold]].
      * injection Heq as ->. rewrite lookup_insert_eq. simpl. eauto.
      * destruct (inv_settled _ _ _ _ Hinv j r Hold) as (c & _ & Hc). congruence.
  - discriminate.
Qed.

Lemma inv_run schedule s :
  inv tenantId w0 row s → inv tenantId w0 row (run lib tenantId schedule s).
Proof.
  revert s. induction schedule as [|i schedule IH]; intros s Hinv; simpl.
  - exact Hinv.
  - apply IH. destruct (step lib tenantId i s) as [s'|] eqn:Hstep; simpl.
    + eapply inv_step; eassumption.
    + exact Hinv.
Qed.

End Invariant.
(** *** No caller waits for ever *)

Lemma run_app lib tenantId schedule rest s :
  run lib tenantId (schedule ++ rest) s =
  run lib tenantId rest (run lib tenantId schedule s).
Proof.
  revert s. induction schedule as [|i schedule IH]; intros s; simpl; [reflexivity|].
  apply IH.
Qed.

Lemma work_moved (l : list pc) (i : nat) (p0 p : pc) :
  l !! i = Some p0 →
  sum_list (remaining <$> <[i := p]> l) + remaining p0 =
  sum_list (remaining <$> l) + remaining p.
Proof.
  revert i. induction l as [|q l IH]; intros [|i] Hi; simpl in *; try discriminate.
  - injection Hi as ->. lia.
  - specialize (IH i Hi). unfold fmap in *. lia.
Qed.

Lemma work_positive (l : list pc) :
  0 < sum_list (remaining <$> l) →
  ∃ i p, l !! i = Some p ∧ 0 < remaining p.
Proof.
  induction l as [|q l IH]; simpl; [lia|]. intros Hpos.
  destruct (remaining q) eqn:Hq.
  - destruct IH as (i & p & Hi & Hp); [unfold fmap in *; lia|].
    exists (S i), p. split; assumption.
  - exists 0, q. split; [reflexivity|lia].
Qed.

Lemma work_zero (l : list pc) :
  sum_list (remaining <$> l) = 0 →
  ∀ i p, l !! i = Some p → ∃ r, p = Settled r.
Proof.
  induction l as [|q l IH]; simpl; intros Hzero [|i] p Hi; simpl in *; try discriminate.
  - injection Hi as ->. destruct p; simpl in Hzero; try lia. eauto.
  - apply (IH ltac:(unfold fmap in *; lia) i p Hi).
Qed.

Lemma lock_inv_init n w : lock_inv (init n w).
Proof.
  split; simpl.
  - intros i p Hi Hp. apply lookup_replicate in Hi as [-> _]. discriminate.
  - discriminate.
Qed.

Lemma step_work lib tenantId i s s' :
  step lib tenantId i s = Some s' → work s' < work s.
Proof.
  unfold step, work.
  destruct (callers s !! i) as [p|] eqn:Hi; [|discriminate].
  pose proof (work_moved (callers s) i p) as Hw.
  assert (Hless : ∀ q, remaining q < remaining p →
            sum_list (remaining <$> <[i := q]> (callers s))
            < sum_list (remaining <$> callers s)).
  { intros q Hq. specialize (Hw q Hi). lia. }
  destruct p as [ | | | |row|r]; simpl in Hless.
  - destruct (String.eqb tenantId "");
      [|destruct (tenantConfigCache (world s) !! tenantId)];
      intros [= <-]; unfold move; simpl; apply Hless; simpl; lia.
  - destruct (lock s); [discriminate|].
    intros [= <-]. simpl. apply Hless; simpl; lia.
  - destruct (tenantConfigCache (world s) !! tenantId);
      intros [= <-]; unfold release; simpl; apply Hless; simpl; lia.
  - destruct (tenants (world s) !! tenantId);
      intros [= <-]; unfold move, release; simpl; apply Hless; simpl; lia.
  - destruct (verifyJWT lib _ _);
      intros [= <-]; unfold release; simpl; apply Hless; simpl; lia.
  - discriminate.
Qed.

Lemma lock_inv_step lib tenantId i s s' :
  lock_inv s → step lib tenantId i s = Some s' → lock_inv s'.
Proof.
  intros [Hheld Hholder]. unfold step.
  destruct (callers s !! i) as [p|] eqn:Hi; [|discriminate].
  assert (Hlen : i < length (callers s)) by (eapply lookup_lt_Some; exact Hi).
  assert (Hkeep : ∀ q v, holds_key p = holds_key q →
            lock_inv {| world := v; lock := lock s; callers := <[i := q]> (callers s) |}).
  { intros q v Hq. split; simpl.
    - intros j q' Hj Hq'. destruct (lookup_moved _ _ _ _ _ _ Hi Hj) as [[-> ->]|[_ Hold]].
      + apply (Hheld i p Hi). congruence.
      + apply (Hheld j q' Hold Hq').
    - intros h Hh. destruct (Hholder h Hh) as (p' & Hp' & Hk).
      destruct (decide (h = i)) as [->|Hne].
      + exists q. rewrite list_lookup_insert_eq by exact Hlen.
        split; [reflexivity|]. congruence.
      + exists p'. rewrite list_lookup_insert_ne by congruence. split; assumption. }
  assert (Hrelease : ∀ r v, holds_key p = true → lock_inv (release i r v s)).
  { intros r v Hp. pose proof (Hheld i p Hi Hp) as Hli.
    split; unfold release; simpl.
    - intros j q' Hj Hq'. destruct (lookup_moved _ _ _ _ _ _ Hi Hj) as [[-> ->]|[Hne Hold]].
      + discriminate.
      + pose proof (Hheld j q' Hold Hq'). congruence.
    - discriminate. }
  destruct p as [ | | | |row|r].
  - destruct (String.eqb tenantId "");
      [|destruct (tenantConfigCache (world s) !! tenantId)];
      intros [= <-]; apply (Hkeep _ (world s)); reflexivity.
  - destruct (lock s) eqn:Hlock; [discriminate|].
    intros [= <-]. split; simpl.
    + intros j q' Hj Hq'. destruct (lookup_moved _ _ _ _ _ _ Hi Hj) as [[-> ->]|[Hne Hold]].
      * reflexivity.
      * pose proof (Hheld j q' Hold Hq'). congruence.
    + intros h [= <-]. exists Holding.
      rewrite list_lookup_insert_eq by exact Hlen. split; reflexivity.
  - destruct (tenantConfigCache (world s) !! tenantId); intros [= <-].
    + apply Hrelease. reflexivity.
    + apply (Hkeep Selecting _ eq_refl).
  - destruct (tenants (world s) !! tenantId); intros [= <-].
    + apply (Hkeep (Verifying _) (world s) eq_refl).
    + apply Hrelease. reflexivity.
  - destruct (verifyJWT lib _ _); intros [= <-]; apply Hrelease; reflexivity.
  - discriminate.
Qed.

(** While somebody has not settled, somebody can move. *)
Lemma some_caller_moves lib tenantId s :
  lock_inv s → 0 < work s → ∃ i s', step lib tenantId i s = Some s'.
Proof.
  intros [Hheld Hholder] Hwork.
  assert (Hgo : ∀ h p, callers s !! h = Some p → holds_key p = true →
                       ∃ s', step lib tenantId h s = Some s').
  { intros h p Hh Hp. unfold step. rewrite Hh.
    destruct p; try discriminate.
    - destruct (tenantConfigCache (world s) !! tenantId); eauto.
    - destruct (tenants (world s) !! tenantId); eauto.
    - destruct (verifyJWT lib _ _); eauto. }
  destruct (lock s) as [h|] eqn:Hlock.
  - destruct (Hholder h eq_refl) as (p & Hh & Hp).
    exists h. eapply Hgo; eassumption.
  - destruct (work_positive _ Hwork) as (i & p & Hi & Hp).
    exists i. destruct (holds_key p) eqn:Hk; [eapply Hgo; eassumption|].
    unfold step. rewrite Hi. destruct p; simpl in *; try discriminate; try lia.
    + destruct (String.eqb tenantId "");
        [|destruct (tenantConfigCache (world s) !! tenantId)]; eauto.
    + rewrite Hlock. eauto.
Qed.

(** From every state that respects the key, some schedule settles all
    callers. *)
Lemma all_settle lib tenantId s :
  lock_inv s →
  ∃ rest, ∀ i p, callers (run lib tenantId rest s) !! i = Some p → ∃ r, p = Settled r.
Proof.
  remember (work s) as k eqn:Hk. revert s Hk.
  induction k as [k IH] using lt_wf_ind. intros s Hk Hinv.
  destruct (decide (work s = 0)) as [Hzero|Hpos].
  - exists []. simpl. apply work_zero. exact Hzero.
  - destruct (some_caller_moves lib tenantId s Hinv) as (i & s' & Hstep); [lia|].
    destruct (IH (work s')) with (s := s') as (rest & Hrest).
    + subst k. eapply step_work. exact Hstep.
    + reflexivity.
    + eapply lock_inv_step; eassumption.
    + exists (i :: rest). simpl. rewrite Hstep. exact Hrest.
Qed.

Lemma lock_inv_run lib tenantId schedule s :
  lock_inv s → lock_inv (run lib tenantId schedule s).
Proof.
  revert s. induction schedule as [|i schedule IH]; intros s Hinv; simpl; [exact Hinv|].
  apply IH. destruct (step lib tenantId i s) as [s'|] eqn:Hstep; simpl.
  - eapply lock_inv_step; eassumption.
  - exact Hinv.
Qed.

End RaceFacts.

(** C9 (as the code has it). For a tenant that has a row in the store and
    whose service key verifies, any number of callers of
    [getTenantConfig], run in any order, make at most one store query
    between them; every caller that has settled has the configuration
    that is in the cache; and from wherever the callers are, they can all
    be run on until each has settled with that configuration. *)
Theorem getTenantConfig_single_flight (lib : Collaborators) (tenantId : string)
    (w : World) (row : TenantRow) (payload : ServiceKeyPayload)
    (n : nat) (schedule : list nat) :
  tenantId ≠ "" →
  tenants w !! tenantId = Some row →
  verifyJWT lib (decrypt lib (service_key row)) (decrypt lib (jwt_secret row))
    = Return payload →
  let s := Race.run lib tenantId schedule (Race.init n w) in
  store_queries tenantId (Race.world s) ≤ S (store_queries tenantId w) ∧
  (∀ i r, Race.callers s !! i = Some (Race.Settled r) →
          ∃ c, r = Return c ∧
               tenantConfigCache (Race.world s) !! tenantId = Some c) ∧
  ∃ rest,
    let s' := Race.run lib tenantId (schedule ++ rest) (Race.init n w) in
    store_queries tenantId (Race.world s') ≤ S (store_queries tenantId w) ∧
    ∀ i p, Race.callers s' !! i = Some p →
           ∃ c, p = Race.Settled (Return c) ∧
                tenantConfigCache (Race.world s') !! tenantId = Some c.
Proof.
  intros Hid Hrow Hjwt s.
  assert (Hinv : ∀ sch, Race.inv tenantId w row (Race.run lib tenantId sch (Race.init n w))).
  { intros sch. apply (RaceFacts.inv_run lib tenantId w row payload Hid Hrow Hjwt).
    apply RaceFacts.inv_init. }
  split; [apply (Race.inv_bound _ _ _ _ (Hinv schedule))|].
  split; [apply (Race.inv_settled _ _ _ _ (Hinv schedule))|].
  destruct (RaceFacts.all_settle lib tenantId s) as (rest & Hrest).
  { apply RaceFacts.lock_inv_run, RaceFacts.lock_inv_init. }
  exists rest. rewrite RaceFacts.run_app. fold s.
  assert (Hinv' : Race.inv tenantId w row (Race.run lib tenantId rest s)).
  { unfold s. rewrite <- RaceFacts.run_app. apply Hinv. }
  split; [apply (Race.inv_bound _ _ _ _ Hinv')|].
  intros i p Hi. destruct (Hrest i p Hi) as (r & ->).
  destruct (Race.inv_settled _ _ _ _ Hinv' i r Hi) as (c & -> & Hc). eauto.
Qed.

Lemma getTenantConfig_single_flight_witness :
  let s := Race.run sample_lib "t2" race_schedule (Race.init 3 sample_world) in
  (store_queries "t2" (Race.world s) ≤ 1 ∧
   ∀ i r, Race.callers s !! i = Some (Race.Settled r) →
          ∃ c, r = Return c ∧ tenantConfigCache (Race.world s) !! "t2" = Some c) ∧
  store_queries "t2" (Race.world s) = 1 ∧
  ∃ c, Race.callers s = replicate 3 (Race.Settled (Return c)).
Proof.
  destruct (getTenantConfig_single_flight sample_lib "t2" sample_world (sample_row None)
              {| role := "service_role" |} 3 race_schedule)
    as (Hbound & Hsettled & _).
  - discriminate.
  - reflexivity.
  - reflexivity.
  - split; [split; [exact Hbound|exact Hsettled]|].
    split; [vm_compute; reflexivity|].
    eexists. vm_compute. reflexivity.
Defined.

(** C9 as stated fails for a tenant without a row: nothing is cached when
    the fetch fails, so the caller that was waiting for the key fetches
    again. Two callers, two store queries. *)
Lemma getTenantConfig_missing_tenant_refetched :
  let s := Race.run sample_lib "t3" [0; 1; 0; 1; 0; 0; 1; 1; 1] (Race.init 2 sample_world) in
  Race.callers s = replicate 2 (Race.Settled (Throw (MissingTenantConfig "t3"))) ∧
  store_queries "t3" (Race.world s) = 2 ∧
  ¬ store_queries "t3" (Race.world s) ≤ 1.
Proof.
  split; [vm_compute; reflexivity|]. split; [vm_compute; reflexivity|].
  vm_compute. lia.
Qed.

Lemma run_cons lib tenantId i schedule s :
  Race.run lib tenantId (i :: schedule) s =
  Race.run lib tenantId schedule (default s (Race.step lib tenantId i s)).
Proof. reflexivity. Qed.

Lemma run_settled lib tenantId schedule r v l :
  Race.run lib tenantId schedule
    {| Race.world := v; Race.lock := l; Race.callers := [Race.Settled r] |}
  = {| Race.world := v; Race.lock := l; Race.callers := [Race.Settled r] |}.
Proof.
  induction schedule as [|[|i] schedule IH]; [reflexivity| |];
    rewrite run_cons; exact IH.
Qed.

(** [getTenantConfig] case by case. *)
Lemma getTenantConfig_cases lib tenantId w :
  getTenantConfig lib tenantId w =
  if String.eqb tenantId "" then (Throw InvalidTenantId, w)
  else
    match tenantConfigCache w !! tenantId with
    | Some c => (Return c, w)
    | None =>
        let w1 := record (StoreQuery "tenants" tenantId) w in
        match tenants w !! tenantId with
        | None => (Throw (MissingTenantConfig tenantId), w1)
        | Some row =>
            let serviceKey := decrypt lib (service_key row) in
            let jwtSecret := decrypt lib (jwt_secret row) in
            match verifyJWT lib serviceKey jwtSecret with
            | Throw e => (Throw e, w1)
            | Return p =>
                let config := tenant_config lib row serviceKey jwtSecret p in
                (Return config, set_tenantConfigCache <[tenantId := config]> w1)
            end
        end
    end.
Proof.
  unfold getTenantConfig, populateTenantConfig, select_tenant, tenantMutex,
    createMutexByKey.
  unfold bind, ret, throw, get, emit, modify, lift.
  destruct (String.eqb tenantId ""); [reflexivity|].
  destruct (tenantConfigCache w !! tenantId) as [c|] eqn:Hc; rewrite ?Hc; [reflexivity|].
  cbn. destruct (tenants w !! tenantId) as [row|]; [|reflexivity].
  cbn. destruct (verifyJWT lib _ _) as [p|e]; [|reflexivity].
  rewrite lookup_insert_eq. reflexivity.
Qed.

(** One caller on its own goes through the points of [Race] to the
    outcome and the world of [getTenantConfig]. *)
Lemma race_solo lib tenantId w :
  Race.run lib tenantId [0; 0; 0; 0; 0] (Race.init 1 w) =
  {| Race.world := (getTenantConfig lib tenantId w).2;
     Race.lock := None;
     Race.callers := [Race.Settled (getTenantConfig lib tenantId w).1] |}.
Proof.
  rewrite getTenantConfig_cases.
  unfold Race.init. cbn [replicate].
  rewrite run_cons. unfold Race.step at 1.
  cbn [Race.callers lookup list_lookup Race.world].
  destruct (String.eqb tenantId "") eqn:Hid.
  { cbn [default from_option id]. unfold Race.move.
    cbn [Race.callers Race.world Race.lock insert list_insert].
    rewrite run_settled. reflexivity. }
  destruct (tenantConfigCache w !! tenantId) as [c|] eqn:Hc.
  { cbn [default from_option id]. unfold Race.move.
    cbn [Race.callers Race.world Race.lock insert list_insert].
    rewrite run_settled. reflexivity. }
  cbn [default from_option id]. unfold Race.move.
  cbn [Race.callers Race.world Race.lock insert list_insert].
  rewrite run_cons. unfold Race.step at 1.
  cbn [Race.callers lookup list_lookup Race.world Race.lock default from_option id
       insert list_insert].
  rewrite run_cons. unfold Race.step at 1.
  cbn [Race.callers lookup list_lookup Race.world Race.lock]. rewrite Hc.
  cbn [default from_option id insert list_insert].
  rewrite run_cons. unfold Race.step at 1.
  cbn [Race.callers lookup list_lookup Race.world Race.lock].
  change (tenants (record (StoreQuery "tenants" tenantId) w)) with (tenants w).
  destruct (tenants w !! tenantId) as [row|] eqn:Hrow.
  2:{ cbn [default from_option id]. unfold Race.release.
      cbn [Race.callers insert list_insert]. rewrite run_settled. reflexivity. }
  cbn [default from_option id]. unfold Race.move.
  cbn [Race.callers Race.world Race.lock insert list_insert].
  rewrite run_cons. unfold Race.step at 1.
  cbn [Race.callers lookup list_lookup Race.world Race.lock].
  destruct (verifyJWT lib _ _) as [p|e];
    cbn [default from_option id]; unfold Race.release;
    cbn [Race.callers insert list_insert]; rewrite run_settled.
  - unfold set_tenantConfigCache; cbn [fst snd tenantConfigCache].
    rewrite lookup_insert_eq. reflexivity.
  - reflexivity.
Qed.

(** * Further properties *)

(** ** The tenant config cache *)

Lemma getTenantConfig_hit lib tenantId w w1 c :
  getTenantConfig lib tenantId w = (Return c, w1) →
  tenantConfigCache w1 !! tenantId = Some c ∧
  getTenantConfig lib tenantId w1 = (Return c, w1).
Proof.
  rewrite !getTenantConfig_cases.
  destruct (String.eqb tenantId "") eqn:Hid; [discriminate|].
  destruct (tenantConfigCache w !! tenantId) as [c0|] eqn:Hc.
  - intros [= <- <-]. rewrite Hc. split; reflexivity.
  - cbn zeta. destruct (tenants w !! tenantId) as [row|]; [|discriminate].
    destruct (verifyJWT lib _ _) as [p|e]; [|discriminate].
    intros [= <- <-]. simpl. rewrite lookup_insert_eq. split; reflexivity.
Qed.

(** X1. Once [getTenantConfig] has returned a configuration, the next call
    for the same tenant returns that configuration from the cache: the
    world, and with it the number of store queries, stays as it is. *)
Theorem getTenantConfig_hit_after_success (lib : Collaborators) (tenantId : string)
    (w w1 : World) (c : TenantConfig) :
  getTenantConfig lib tenantId w = (Return c, w1) →
  tenantConfigCache w1 !! tenantId = Some c ∧
  getTenantConfig lib tenantId w1 = (Return c, w1) ∧
  store_queries tenantId (getTenantConfig lib tenantId w1).2 = store_queries tenantId w1.
Proof.
  intros Hrun. destruct (getTenantConfig_hit lib tenantId w w1 c Hrun) as [Hc Hhit].
  split; [exact Hc|]. split; [exact Hhit|]. rewrite Hhit. reflexivity.
Qed.

Lemma getTenantConfig_hit_after_success_witness :
  ∃ c w1,
    getTenantConfig sample_lib "t1" sample_world = (Return c, w1) ∧
    store_queries "t1" w1 = 1 ∧
    getTenantConfig sample_lib "t1" w1 = (Return c, w1).
Proof.
  eexists _, _. split; [vm_compute; reflexivity|]. split; [vm_compute; reflexivity|].
  eapply (getTenantConfig_hit_after_success sample_lib "t1" sample_world).
  vm_compute. reflexivity.
Defined.

(** X2. Invalidation is followed by a fresh fetch. After
    [deleteTenantConfig], or after a message for the tenant on the
    [tenants_update] channel (the two leave the same world), the next
    [getTenantConfig] of a non-empty identifier makes one store query,
    whatever was cached before, and what it returns for a tenant whose
    key verifies is built from the row that is in the store now. *)
Theorem invalidate_then_refetch (lib : Collaborators) (tenantId : string) (w : World) :
  tenantId ≠ "" →
  let w0 := (deleteTenantConfig tenantId w).2 in
  (onTenantUpdate TENANTS_UPDATE_CHANNEL tenantId w).2 = w0 ∧
  store_queries tenantId (getTenantConfig lib tenantId w0).2
    = S (store_queries tenantId w) ∧
  ∀ row p,
    tenants w !! tenantId = Some row →
    verifyJWT lib (decrypt lib (service_key row)) (decrypt lib (jwt_secret row))
      = Return p →
    (getTenantConfig lib tenantId w0).1 =
      Return (tenant_config lib row (decrypt lib (service_key row))
                (decrypt lib (jwt_secret row)) p).
Proof.
  intros Hid w0. split; [reflexivity|].
  assert (Hmiss : tenantConfigCache w0 !! tenantId = None) by apply lookup_delete_eq.
  assert (Hq : store_queries tenantId w0 = store_queries tenantId w) by reflexivity.
  rewrite getTenantConfig_cases, (eqb_empty_false _ Hid), Hmiss. cbn zeta.
  change (tenants w0) with (tenants w). split.
  - destruct (tenants w !! tenantId) as [row|]; [destruct (verifyJWT lib _ _)|];
      simpl; rewrite <- Hq;
      change (store_queries tenantId (record (StoreQuery "tenants" tenantId) w0)
              = S (store_queries tenantId w0));
      rewrite store_queries_record, is_tenant_query_refl; lia.
  - intros row p Hrow Hjwt. rewrite Hrow, Hjwt. reflexivity.
Qed.

Lemma invalidate_then_refetch_witness :
  let stale := (getTenantConfig sample_lib "t2" sample_world).2 in
  let w0 := (deleteTenantConfig "t2" stale).2 in
  store_queries "t2" stale = 1 ∧
  store_queries "t2" (getTenantConfig sample_lib "t2" w0).2 = 2.
Proof.
  split; [vm_compute; reflexivity|].
  apply (invalidate_then_refetch sample_lib "t2"
           (getTenantConfig sample_lib "t2" sample_world).2).
  discriminate.
Defined.

(** X3. [getTenantConfig] only ever adds to the tenant config cache, and
    only under the identifier it was called with: it leaves the store, the
    credentials cache and every other cached tenant as they are, never
    replaces a cached configuration, and reaches neither the queue nor a
    handler. *)
Theorem getTenantConfig_frame (lib : Collaborators) (tenantId : string) (w : World) :
  let w' := (getTenantConfig lib tenantId w).2 in
  tenants w' = tenants w ∧
  tenants_s3_credentials w' = tenants_s3_credentials w ∧
  tenantS3CredentialsCache w' = tenantS3CredentialsCache w ∧
  dispatches w' = dispatches w ∧
  (∀ t c, tenantConfigCache w !! t = Some c → tenantConfigCache w' !! t = Some c) ∧
  (∀ t, t ≠ tenantId → tenantConfigCache w' !! t = tenantConfigCache w !! t).
Proof.
  intros w'.
  assert (Hd : dispatches w' = dispatches w).
  { unfold w'. destruct (getTenantConfig lib tenantId w) as [r v] eqn:Hrun.
    eapply getTenantConfig_dispatches. exact Hrun. }
  revert Hd. unfold w'. rewrite getTenantConfig_cases.
  destruct (String.eqb tenantId ""); [intros Hd; repeat split; auto|].
  destruct (tenantConfigCache w !! tenantId) as [c0|] eqn:Hc;
    [intros Hd; repeat split; auto|].
  cbn zeta. destruct (tenants w !! tenantId) as [row|];
    [destruct (verifyJWT lib _ _) as [p|e]|]; simpl; intros Hd;
    (split; [reflexivity|]); (split; [reflexivity|]); (split; [reflexivity|]);
    (split; [exact Hd|]); try (split; auto; fail).
  split.
  - intros t c Ht. destruct (decide (tenantId = t)) as [<-|Hne]; [congruence|].
    rewrite lookup_insert_ne by exact Hne. exact Ht.
  - intros t Hne. apply lookup_insert_ne. congruence.
Qed.

Lemma getTenantConfig_frame_witness :
  let w := (getTenantConfig sample_lib "t1" sample_world).2 in
  let w' := (getTenantConfig sample_lib "t2" w).2 in
  tenantConfigCache w' !! "t1" = tenantConfigCache w !! "t1" ∧
  is_Some (tenantConfigCache w' !! "t1").
Proof.
  destruct (getTenantConfig_frame sample_lib "t2"
              (getTenantConfig sample_lib "t1" sample_world).2)
    as (_ & _ & _ & _ & _ & Hother).
  split.
  - apply Hother. discriminate.
  - vm_compute. eauto.
Defined.

(** X4. The accessors share the cache entry of [getTenantConfig]: once a
    tenant's configuration has been fetched, [getServiceKey],
    [getFileSizeLimit], [getFeatures] and (in multi-tenant mode)
    [getServiceKeyUser] return its fields without touching the world, so
    without any store query. In single-tenant mode [getServiceKeyUser]
    answers from the process configuration, for any identifier and
    without touching the world. *)
Theorem accessors_read_the_cached_config (cfg : Config) (lib : Collaborators)
    (tenantId : string) (w w1 : World) (c : TenantConfig) :
  getTenantConfig lib tenantId w = (Return c, w1) →
  getServiceKey lib tenantId w1 = (Return (tc_serviceKey c), w1) ∧
  getFileSizeLimit lib tenantId w1 = (Return (fileSizeLimit c), w1) ∧
  getFeatures lib tenantId w1 = (Return (features c), w1) ∧
  (isMultitenant cfg = true →
   getServiceKeyUser cfg lib tenantId w1 =
     (Return {| sku_jwt := tc_serviceKey c;
                sku_payload := serviceKeyPayload c;
                sku_jwtSecret := tc_jwtSecret c |}, w1)) ∧
  (isMultitenant cfg = false →
   ∀ t v, getServiceKeyUser cfg lib t v =
            (Return {| sku_jwt := serviceKey cfg;
                       sku_payload := {| role := dbServiceRole cfg |};
                       sku_jwtSecret := jwtSecret cfg |}, v)).
Proof.
  intros Hrun.
  destruct (getTenantConfig_hit lib tenantId w w1 c Hrun) as [_ Hhit].
  unfold getServiceKey, getFileSizeLimit, getFeatures, getServiceKeyUser,
    singleTenantServiceKey, bind.
  rewrite Hhit. repeat split.
  - intros ->. rewrite Hhit. reflexivity.
  - intros ->. reflexivity.
Qed.

Lemma accessors_read_the_cached_config_witness :
  let w1 := (getTenantConfig sample_lib "t1" sample_world).2 in
  getFileSizeLimit sample_lib "t1" w1 = (Return 1000%Z, w1) ∧
  getServiceKey sample_lib "t1" w1 = (Return "service", w1).
Proof.
  edestruct (accessors_read_the_cached_config sample_config sample_lib "t1" sample_world)
    as (Hkey & Hlimit & _).
  { vm_compute. reflexivity. }
  split; [exact Hlimit|exact Hkey].
Defined.

(** ** S3 credentials: cache and store *)

Lemma find_app {A} (f : A → bool) (l l' : list A) :
  List.find f (l ++ l') =
  match List.find f l with
  | Some x => Some x
  | None => List.find f l'
  end.
Proof.
  induction l as [|a l IH]; simpl; [reflexivity|].
  destruct (f a); [reflexivity|exact IH].
Qed.

(** [getS3CredentialsByAccessKey] case by case. *)
Lemma getS3CredentialsByAccessKey_cases lib tenantId accessKey w :
  getS3CredentialsByAccessKey lib tenantId accessKey w =
  match tenantS3CredentialsCache w !! cacheKey tenantId accessKey with
  | Some c => (Return c, w)
  | None =>
      let w1 := record (StoreQuery "tenants_s3_credentials" tenantId) w in
      match List.find (has_access_key tenantId accessKey) (tenants_s3_credentials w) with
      | None => (Throw MissingS3Credentials, w1)
      | Some row =>
          let credentials :=
            {| accessKey := access_key row;
               secretKey := decrypt lib (secret_key row);
               claims := persisted_claims (cr_claims row) |} in
          (Return credentials,
           set_tenantS3CredentialsCache <[cacheKey tenantId accessKey := credentials]> w1)
      end
  end.
Proof.
  unfold getS3CredentialsByAccessKey, populateS3Credentials, s3CredentialsMutex,
    createMutexByKey.
  unfold bind, ret, throw, get, emit, modify, lift.
  destruct (tenantS3CredentialsCache w !! cacheKey tenantId accessKey) as [c|] eqn:Hc;
    rewrite ?Hc; [reflexivity|].
  cbn. destruct (List.find _ _); reflexivity.
Qed.

(** What [createS3Credentials] returns and leaves behind. *)
Lemma createS3Credentials_cases cfg lib tenantId description claims w :
  createS3Credentials cfg lib tenantId description claims w =
  let w0 := record (StoreQuery "tenants_s3_credentials" tenantId) w in
  let row := created_row cfg lib tenantId description claims w in
  (Return {| cc_id := cr_id row;
             cc_access_key := access_key row;
             cc_secret_key :=
               String.substring 0 64 (randomBytes_hex lib (S (draws w)) 64) |},
   set_credentials (fun rows => (rows ++ [row])%list) (next_draw (next_draw w0))).
Proof. reflexivity. Qed.

Lemma has_access_key_created cfg lib tenantId description claims w :
  has_access_key tenantId
    (access_key (created_row cfg lib tenantId description claims w))
    (created_row cfg lib tenantId description claims w) = true.
Proof.
  unfold has_access_key; simpl. rewrite !String.eqb_refl. reflexivity.
Qed.

(** X5. A credential that was created can be fetched by its access key.
    When decryption undoes encryption and the tenant had no credential
    with the new access key (neither in the store nor cached),
    [getS3CredentialsByAccessKey] on what [createS3Credentials] returned
    gives that access key, the very secret that was returned in plain
    text, and the claims as persisted. *)
Theorem create_then_get_by_access_key (cfg : Config) (lib : Collaborators)
    (tenantId description : string) (claims : option object) (w w1 : World)
    (c : CreatedCredential) :
  (∀ s, decrypt lib (encrypt lib s) = s) →
  createS3Credentials cfg lib tenantId description claims w = (Return c, w1) →
  List.find (has_access_key tenantId (cc_access_key c)) (tenants_s3_credentials w) = None →
  tenantS3CredentialsCache w !! cacheKey tenantId (cc_access_key c) = None →
  (getS3CredentialsByAccessKey lib tenantId (cc_access_key c) w1).1 =
    Return {| accessKey := cc_access_key c;
              secretKey := cc_secret_key c;
              claims := persisted_claims (credential_claims cfg tenantId claims) |}.
Proof.
  intros Hdec. rewrite createS3Credentials_cases. cbn zeta.
  intros [= <- <-]. cbn [cc_access_key cc_secret_key]. intros Hfresh Hcache.
  rewrite getS3CredentialsByAccessKey_cases.
  cbn [tenantS3CredentialsCache tenants_s3_credentials set_credentials next_draw record].
  rewrite Hcache, find_app, Hfresh. cbn [List.find].
  pose proof (has_access_key_created cfg lib tenantId description claims w) as Hrow.
  cbn [created_row access_key] in Hrow. rewrite Hrow.
  simpl. rewrite Hdec. reflexivity.
Qed.

Lemma create_then_get_by_access_key_witness :
  let created := createS3Credentials sample_config sample_lib "t1" "ci"
                   (Some forged_claims) empty_world in
  ∃ c, created.1 = Return c ∧
    (getS3CredentialsByAccessKey sample_lib "t1" (cc_access_key c) created.2).1 =
      Return {| accessKey := cc_access_key c;
                secretKey := cc_secret_key c;
                claims := persisted_claims
                            (credential_claims sample_config "t1" (Some forged_claims)) |}.
Proof.
  eexists. split; [vm_compute; reflexivity|].
  eapply (create_then_get_by_access_key sample_config sample_lib "t1" "ci"
            (Some forged_claims) empty_world).
  - reflexivity.
  - vm_compute. reflexivity.
  - reflexivity.
  - reflexivity.
Defined.

(** X6. A lookup that finds no credential fails with
    [MissingS3Credentials] after one store query and caches nothing, so
    the next lookup goes to the store again; and no failed lookup ever
    changes the credentials cache. *)
Theorem getS3CredentialsByAccessKey_missing (lib : Collaborators)
    (tenantId accessKey : string) (w : World) :
  (∀ e w', getS3CredentialsByAccessKey lib tenantId accessKey w = (Throw e, w') →
           tenantS3CredentialsCache w' = tenantS3CredentialsCache w) ∧
  (tenantS3CredentialsCache w !! cacheKey tenantId accessKey = None →
   List.find (has_access_key tenantId accessKey) (tenants_s3_credentials w) = None →
   let w1 := record (StoreQuery "tenants_s3_credentials" tenantId) w in
   getS3CredentialsByAccessKey lib tenantId accessKey w = (Throw MissingS3Credentials, w1) ∧
   getS3CredentialsByAccessKey lib tenantId accessKey w1 =
     (Throw MissingS3Credentials, record (StoreQuery "tenants_s3_credentials" tenantId) w1)).
Proof.
  split.
  - intros e w'. rewrite getS3CredentialsByAccessKey_cases.
    destruct (tenantS3CredentialsCache w !! _); [discriminate|]. cbn zeta.
    destruct (List.find _ _); [discriminate|]. intros [= _ <-]. reflexivity.
  - intros Hcache Hfind w1. rewrite !getS3CredentialsByAccessKey_cases.
    subst w1. simpl. rewrite Hcache, Hfind. split; reflexivity.
Qed.

Lemma getS3CredentialsByAccessKey_missing_witness :
  getS3CredentialsByAccessKey sample_lib "t1" "nobody" empty_world
  = (Throw MissingS3Credentials,
     record (StoreQuery "tenants_s3_credentials" "t1") empty_world).
Proof.
  apply (getS3CredentialsByAccessKey_missing sample_lib "t1" "nobody" empty_world);
    reflexivity.
Defined.

(** X7. A successful lookup of a credential is cached under
    [tenant:accessKey]: the next lookup returns the same credentials and
    leaves the world as it is. A lookup never writes to the store nor to
    the tenant config cache. *)
Theorem getS3CredentialsByAccessKey_hit_after_success (lib : Collaborators)
    (tenantId accessKey : string) (w w1 : World) (c : S3Credentials) :
  getS3CredentialsByAccessKey lib tenantId accessKey w = (Return c, w1) →
  tenantS3CredentialsCache w1 !! cacheKey tenantId accessKey = Some c ∧
  getS3CredentialsByAccessKey lib tenantId accessKey w1 = (Return c, w1) ∧
  tenants_s3_credentials w1 = tenants_s3_credentials w ∧
  tenantConfigCache w1 = tenantConfigCache w.
Proof.
  rewrite !getS3CredentialsByAccessKey_cases.
  destruct (tenantS3CredentialsCache w !! cacheKey tenantId accessKey) as [c0|] eqn:Hc.
  - intros [= <- <-]. rewrite Hc. repeat split.
  - cbn zeta. destruct (List.find _ _) as [row|]; [|discriminate].
    intros [= <- <-]. simpl. rewrite lookup_insert_eq. repeat split.
Qed.

Lemma getS3CredentialsByAccessKey_hit_after_success_witness :
  let w0 := world_with_credentials 1 in
  let w1 := (getS3CredentialsByAccessKey sample_lib "t1" "AK" w0).2 in
  ∃ c, getS3CredentialsByAccessKey sample_lib "t1" "AK" w0 = (Return c, w1) ∧
       getS3CredentialsByAccessKey sample_lib "t1" "AK" w1 = (Return c, w1).
Proof.
  eexists. split; [vm_compute; reflexivity|].
  eapply (getS3CredentialsByAccessKey_hit_after_success sample_lib "t1" "AK"
            (world_with_credentials 1)).
  vm_compute. reflexivity.
Defined.

Lemma credential_count_other tenantId t rows r :
  tenant_id r = tenantId → t ≠ tenantId →
  length (filter (fun r => of_tenant t r = true) (rows ++ [r])%list) =
  length (filter (fun r => of_tenant t r = true) rows).
Proof.
  intros Hr Hne. rewrite filter_app, length_app.
  rewrite filter_cons_False; [simpl; lia|].
  unfold of_tenant. rewrite Hr. intros Heq. apply String.eqb_eq in Heq. congruence.
Qed.

Lemma createS3Credentials_other_tenant cfg lib tenantId description claims w t :
  t ≠ tenantId →
  credential_count t (createS3Credentials cfg lib tenantId description claims w).2
  = credential_count t w.
Proof.
  intros Hne. rewrite createS3Credentials_cases. cbn zeta.
  unfold credential_count; simpl.
  apply (credential_count_other tenantId); [reflexivity|exact Hne].
Qed.

(** X8. [createS3Credentials] touches one tenant only: it keeps every row
    that was in the table, adds at most one row, which belongs to the
    tenant it was called for, leaves the number of credentials of every
    other tenant as it was, and leaves both caches and the tenants table
    alone. *)
Theorem createS3Credentials_frame (cfg : Config) (lib : Collaborators)
    (tenantId description : string) (claims : option object) (w : World) :
  let w' := (createS3Credentials cfg lib tenantId description claims w).2 in
  (∃ new, tenants_s3_credentials w' = (tenants_s3_credentials w ++ new)%list ∧
          length new ≤ 1 ∧ Forall (fun r => tenant_id r = tenantId) new) ∧
  (∀ t, t ≠ tenantId → credential_count t w' = credential_count t w) ∧
  tenantS3CredentialsCache w' = tenantS3CredentialsCache w ∧
  tenantConfigCache w' = tenantConfigCache w ∧
  tenants w' = tenants w.
Proof.
  intros w'. subst w'. rewrite createS3Credentials_cases. cbn zeta. simpl.
  split.
  - eexists [_]. split; [reflexivity|]. split; [simpl; lia|].
    constructor; [reflexivity|constructor].
  - repeat split. intros t Hne. unfold credential_count; simpl.
    apply (credential_count_other tenantId); [reflexivity|exact Hne].
Qed.

Lemma createS3Credentials_frame_witness :
  credential_count "t9"
    (createS3Credentials sample_config sample_lib "t1" "ci" None
       (world_with_credentials 3)).2
  = credential_count "t9" (world_with_credentials 3).
Proof.
  apply (createS3Credentials_frame sample_config sample_lib "t1" "ci" None
           (world_with_credentials 3)).
  discriminate.
Defined.

Lemma delete_count tenantId credentialId t rows :
  length (filter (fun r => of_tenant t r = true)
            (filter (fun r => is_credential tenantId credentialId r = false) rows))
  ≤ length (filter (fun r => of_tenant t r = true) rows).
Proof.
  induction rows as [|r rows IH]; [reflexivity|].
  destruct (is_credential tenantId credentialId r) eqn:Hc.
  - rewrite (filter_cons_False (fun r => is_credential _ _ r = false)) by congruence.
    destruct (of_tenant t r) eqn:Ht.
    + rewrite (filter_cons_True (fun r => of_tenant t r = true)) by exact Ht.
      simpl. lia.
    + rewrite (filter_cons_False (fun r => of_tenant t r = true)) by congruence.
      exact IH.
  - rewrite (filter_cons_True (fun r => is_credential _ _ r = false)) by exact Hc.
    destruct (of_tenant t r) eqn:Ht.
    + rewrite !(filter_cons_True (fun r => of_tenant t r = true)) by exact Ht.
      simpl. lia.
    + rewrite !(filter_cons_False (fun r => of_tenant t r = true)) by congruence.
      exact IH.
Qed.

Lemma length_substring_le (n : nat) (s : string) :
  String.length (String.substring 0 n s) ≤ n.
Proof.
  revert s. induction n as [|n IH]; intros [|a s]; simpl; try lia.
  specialize (IH s). lia.
Qed.

(** X10. The secret leaves [createS3Credentials] in plain text once and
    is stored encrypted: the appended row carries the returned id and
    access key, the description given and the encryption of the returned
    secret; the access key has at most 32 characters and the secret at
    most 64. *)
Theorem createS3Credentials_secret (cfg : Config) (lib : Collaborators)
    (tenantId descr : string) (claims : option object) (w w1 : World)
    (c : CreatedCredential) :
  createS3Credentials cfg lib tenantId descr claims w = (Return c, w1) →
  ∃ row,
    tenants_s3_credentials w1 = (tenants_s3_credentials w ++ [row])%list ∧
    cr_id row = cc_id c ∧
    access_key row = cc_access_key c ∧
    secret_key row = encrypt lib (cc_secret_key c) ∧
    description row = descr ∧
    String.length (cc_access_key c) ≤ 32 ∧
    String.length (cc_secret_key c) ≤ 64.
Proof.
  rewrite createS3Credentials_cases. cbn zeta.
  intros [= <- <-]. eexists. split; [reflexivity|]. simpl.
  repeat split; apply length_substring_le.
Qed.

Lemma createS3Credentials_secret_witness :
  let created := createS3Credentials sample_config sample_lib "t1" "ci" None empty_world in
  ∃ c row, created.1 = Return c ∧
    tenants_s3_credentials created.2 = [row] ∧
    secret_key row = encrypt sample_lib (cc_secret_key c) ∧
    String.length (cc_access_key c) = 32 ∧
    String.length (cc_secret_key c) = 64.
Proof.
  edestruct (createS3Credentials_secret sample_config sample_lib "t1" "ci" None empty_world)
    as (row & Hrows & _ & _ & Hsecret & _).
  { vm_compute. reflexivity. }
  eexists _, row. split; [vm_compute; reflexivity|].
  split; [exact Hrows|]. split; [exact Hsecret|].
  split; vm_compute; reflexivity.
Defined.

(** X11. Claims of the caller outside the protected names are persisted
    as given: under every name other than [iss], [issuer], [exp], [iat] and
    [role] (so also under [sub]) the persisted claims of the new row are
    the caller's, a claim given as [undefined] being left out. *)
Theorem createS3Credentials_custom_claims (cfg : Config) (lib : Collaborators)
    (tenantId descr : string) (claims : option object) (w w1 : World)
    (c : CreatedCredential) (k : string) :
  createS3Credentials cfg lib tenantId descr claims w = (Return c, w1) →
  k ≠ "iss" → k ≠ "issuer" → k ≠ "exp" → k ≠ "iat" → k ≠ "role" →
  ∃ row,
    tenants_s3_credentials w1 = (tenants_s3_credentials w ++ [row])%list ∧
    persisted_claims (cr_claims row) !! k = persisted_claims (default ∅ claims) !! k.
Proof.
  intros Hrun Hiss Hissuer Hexp Hiat Hrole.
  apply createS3Credentials_inv in Hrun.
  exists (created_row cfg lib tenantId descr claims w). split; [exact Hrun|].
  cbn [created_row cr_claims]. unfold persisted_claims, credential_claims.
  rewrite !map_lookup_filter.
  destruct (decide (k = "sub")) as [->|Hsub].
  - rewrite lookup_insert_eq. rewrite opt_prop_strip by discriminate.
    destruct claims as [o|]; simpl; [|rewrite lookup_empty; reflexivity].
    unfold prop. destruct (o !! "sub") as [v|]; simpl; [|reflexivity].
    reflexivity.
  - rewrite !lookup_insert_ne by congruence.
    destruct claims as [o|]; simpl; [|reflexivity].
    rewrite strip_claims_lookup by assumption. reflexivity.
Qed.

Lemma createS3Credentials_custom_claims_witness :
  ∃ row,
    tenants_s3_credentials
      (createS3Credentials sample_config sample_lib "t1" "ci" (Some forged_claims)
         empty_world).2 = ([] ++ [row])%list ∧
    persisted_claims (cr_claims row) !! "team" = Some (VStr "blue").
Proof.
  edestruct (createS3Credentials_custom_claims sample_config sample_lib "t1" "ci"
               (Some forged_claims) empty_world) with (k := "team")
    as (row & Hrows & Hteam).
  { vm_compute. reflexivity. }
  1-5: discriminate.
  exists row. split; [exact Hrows|]. rewrite Hteam. vm_compute. reflexivity.
Defined.

Lemma is_credential_of_tenant tenantId credentialId r :
  is_credential tenantId credentialId r = true → of_tenant tenantId r = true.
Proof. unfold is_credential, of_tenant. intros H. apply andb_prop in H. tauto. Qed.

Lemma delete_accounting tenantId credentialId rows :
  length (filter (fun r => of_tenant tenantId r = true)
            (filter (fun r => is_credential tenantId credentialId r = false) rows))
  + length (filter (fun r => is_credential tenantId credentialId r = true) rows)
  = length (filter (fun r => of_tenant tenantId r = true) rows).
Proof.
  induction rows as [|r rows IH]; [reflexivity|].
  destruct (is_credential tenantId credentialId r) eqn:Hc.
  - rewrite (filter_cons_False (fun r => is_credential _ _ r = false)) by congruence.
    rewrite (filter_cons_True (fun r => is_credential _ _ r = true)) by exact Hc.
    rewrite (filter_cons_True (fun r => of_tenant _ r = true))
      by (eapply is_credential_of_tenant; exact Hc).
    simpl. lia.
  - rewrite (filter_cons_True (fun r => is_credential _ _ r = false)) by exact Hc.
    rewrite (filter_cons_False (fun r => is_credential _ _ r = true)) by congruence.
    destruct (of_tenant tenantId r) eqn:Ht.
    + rewrite !(filter_cons_True (fun r => of_tenant _ r = true)) by exact Ht.
      simpl. lia.
    + rewrite !(filter_cons_False (fun r => of_tenant _ r = true)) by congruence.
      exact IH.
Qed.

Lemma delete_other_tenant tenantId credentialId t (rows : list CredentialRow) :
  t ≠ tenantId →
  filter (fun r => of_tenant t r = true)
    (filter (fun r => is_credential tenantId credentialId r = false) rows)
  = filter (fun r => of_tenant t r = true) rows.
Proof.
  intros Hne. induction rows as [|r rows IH]; [reflexivity|].
  destruct (is_credential tenantId credentialId r) eqn:Hc.
  - rewrite (filter_cons_False (fun r => is_credential _ _ r = false)) by congruence.
    rewrite (filter_cons_False (fun r => of_tenant t r = true)); [exact IH|].
    apply is_credential_of_tenant in Hc. unfold of_tenant in *.
    apply String.eqb_eq in Hc. intros Ht. apply String.eqb_eq in Ht. congruence.
  - rewrite (filter_cons_True (fun r => is_credential _ _ r = false)) by exact Hc.
    destruct (of_tenant t r) eqn:Ht.
    + rewrite !(filter_cons_True (fun r => of_tenant t r = true)) by exact Ht.
      rewrite IH. reflexivity.
    + rewrite !(filter_cons_False (fun r => of_tenant t r = true)) by congruence.
      exact IH.
Qed.

Lemma delete_twice tenantId credentialId (rows : list CredentialRow) :
  filter (fun r => is_credential tenantId credentialId r = true)
    (filter (fun r => is_credential tenantId credentialId r = false) rows) = [] ∧
  filter (fun r => is_credential tenantId credentialId r = false)
    (filter (fun r => is_credential tenantId credentialId r = false) rows)
  = filter (fun r => is_credential tenantId credentialId r = false) rows.
Proof.
  induction rows as [|r rows [IH1 IH2]]; [split; reflexivity|].
  destruct (is_credential tenantId credentialId r) eqn:Hc.
  - rewrite !(filter_cons_False (fun r => is_credential _ _ r = false)) by congruence.
    split; assumption.
  - rewrite (filter_cons_True (fun r => is_credential _ _ r = false)) by exact Hc.
    rewrite (filter_cons_False (fun r => is_credential _ _ r = true)) by congruence.
    rewrite (filter_cons_True (fun r => is_credential _ _ r = false)) by exact Hc.
    rewrite IH2. split; [exact IH1|reflexivity].
Qed.

(** X12. [deleteS3Credential] accounts for what it removes and stays
    within the tenant: the tenant has as many credentials fewer as ids
    came back, every id that came back is the one asked for, the rows of
    every other tenant are the same as before, and deleting again returns
    no id and leaves the table as it is. *)
Theorem deleteS3Credential_accounting (tenantId credentialId : string) (w : World) :
  ∃ ids w' w'',
    deleteS3Credential tenantId credentialId w = (Return ids, w') ∧
    credential_count tenantId w' + length ids = credential_count tenantId w ∧
    Forall (fun id => id = credentialId) ids ∧
    (∀ t, t ≠ tenantId →
          filter (fun r => of_tenant t r = true) (tenants_s3_credentials w')
          = filter (fun r => of_tenant t r = true) (tenants_s3_credentials w)) ∧
    deleteS3Credential tenantId credentialId w' = (Return [], w'') ∧
    tenants_s3_credentials w'' = tenants_s3_credentials w'.
Proof.
  eexists _, _, _. split; [reflexivity|]. simpl.
  destruct (delete_twice tenantId credentialId (tenants_s3_credentials w)) as [Hnil Hsame].
  split; [|split; [|split; [|split]]].
  - unfold credential_count; simpl. rewrite length_fmap. apply delete_accounting.
  - apply Forall_fmap. apply Forall_forall. intros r Hr.
    apply list_elem_of_filter in Hr as [Hr _]. simpl.
    unfold is_credential in Hr. apply andb_prop in Hr as [_ Hr].
    apply String.eqb_eq. exact Hr.
  - intros t Hne. apply delete_other_tenant. exact Hne.
  - unfold deleteS3Credential, bind, get, emit, modify, ret; simpl.
    rewrite Hnil. reflexivity.
  - simpl. exact Hsame.
Qed.

Lemma deleteS3Credential_accounting_witness :
  credential_count "t1" (deleteS3Credential "t1" "c" (world_with_credentials 3)).2 = 0 ∧
  filter (fun r => of_tenant "t9" r = true)
    (tenants_s3_credentials (deleteS3Credential "t1" "c" (world_with_credentials 3)).2)
  = filter (fun r => of_tenant "t9" r = true)
      (tenants_s3_credentials (world_with_credentials 3)).
Proof.
  destruct (deleteS3Credential_accounting "t1" "c" (world_with_credentials 3))
    as (ids & w' & w'' & Hrun & Hcount & _ & Hother & _).
  rewrite Hrun. simpl. split.
  - injection Hrun as <- <-. vm_compute. reflexivity.
  - apply Hother. discriminate.
Defined.

Lemma deleteS3Credential_run tenantId credentialId w :
  deleteS3Credential tenantId credentialId w =
  (Return (cr_id <$> filter (fun r => is_credential tenantId credentialId r = true)
                            (tenants_s3_credentials w)),
   set_credentials (filter (fun r => is_credential tenantId credentialId r = false))
     (record (StoreQuery "tenants_s3_credentials" tenantId) w)).
Proof. reflexivity. Qed.

Lemma filter_none_matches {A} (f : A → bool) (l : list A) :
  Forall (fun a => f a = false) l →
  filter (fun a => f a = false) l = l ∧ filter (fun a => f a = true) l = [].
Proof.
  induction 1 as [|a l Ha _ [IH1 IH2]]; [split; reflexivity|].
  rewrite (filter_cons_True (fun a => f a = false)) by exact Ha.
  rewrite (filter_cons_False (fun a => f a = true)) by congruence.
  rewrite IH1. split; [reflexivity|exact IH2].
Qed.

(** X13. Deleting the credential that was just created undoes the
    creation: when the id the store gave the new row is not the id of
    another credential of the tenant, [deleteS3Credential] with the
    returned id returns exactly that id, and the table is what it was
    before [createS3Credentials]. *)
Theorem create_then_delete (cfg : Config) (lib : Collaborators)
    (tenantId descr : string) (claims : option object) (w w1 : World)
    (c : CreatedCredential) :
  createS3Credentials cfg lib tenantId descr claims w = (Return c, w1) →
  Forall (fun r => is_credential tenantId (cc_id c) r = false) (tenants_s3_credentials w) →
  ∃ w2,
    deleteS3Credential tenantId (cc_id c) w1 = (Return [cc_id c], w2) ∧
    tenants_s3_credentials w2 = tenants_s3_credentials w.
Proof.
  rewrite createS3Credentials_cases. cbn zeta.
  intros [= <- <-]. cbn [cc_id created_row cr_id]. intros Hfresh.
  set (id := row_id lib (length (tenants_s3_credentials w))) in *.
  set (row := created_row cfg lib tenantId descr claims w) in *.
  assert (Hrow : is_credential tenantId id row = true).
  { unfold is_credential, row, id; simpl. rewrite !String.eqb_refl. reflexivity. }
  destruct (filter_none_matches (is_credential tenantId id)
              (tenants_s3_credentials w) Hfresh) as [Hkeep Hnone].
  rewrite deleteS3Credential_run.
  cbn [tenants_s3_credentials set_credentials next_draw record].
  eexists. split.
  - rewrite filter_app, Hnone.
    rewrite (filter_cons_True (fun r => is_credential tenantId id r = true))
      by exact Hrow.
    rewrite filter_nil. reflexivity.
  - cbn [tenants_s3_credentials set_credentials next_draw record].
    rewrite filter_app, Hkeep.
    rewrite (filter_cons_False (fun r => is_credential tenantId id r = false))
      by congruence.
    rewrite filter_nil. apply app_nil_r.
Qed.

Lemma create_then_delete_witness :
  let created := createS3Credentials sample_config sample_lib "t1" "ci" None
                   (world_with_credentials 2) in
  ∃ w2, deleteS3Credential "t1" "cred-new" created.2 = (Return ["cred-new"], w2) ∧
        tenants_s3_credentials w2 = tenants_s3_credentials (world_with_credentials 2).
Proof.
  eapply (create_then_delete sample_config sample_lib "t1" "ci" None
            (world_with_credentials 2) _
            {| cc_id := "cred-new"; cc_access_key := _; cc_secret_key := _ |}).
  - vm_compute. reflexivity.
  - repeat constructor.
Defined.

(** X14. What it takes for a deleted credential to stop working. A
    cached credential is still served, without a store query, after its
    row has been deleted; once the message with its cache key has arrived
    on the credentials channel, the lookup goes to the store and, no row
    of the tenant carrying the access key any more, fails with
    [MissingS3Credentials]. *)
Theorem deleted_credential_served_until_invalidated (lib : Collaborators)
    (tenantId credentialId accessKey : string) (w : World) (cached : S3Credentials) :
  tenantS3CredentialsCache w !! cacheKey tenantId accessKey = Some cached →
  let w1 := (deleteS3Credential tenantId credentialId w).2 in
  List.find (has_access_key tenantId accessKey) (tenants_s3_credentials w1) = None →
  getS3CredentialsByAccessKey lib tenantId accessKey w1 = (Return cached, w1) ∧
  let w2 := (onTenantUpdate TENANTS_S3_CREDENTIALS_UPDATE_CHANNEL
               (cacheKey tenantId accessKey) w1).2 in
  getS3CredentialsByAccessKey lib tenantId accessKey w2 =
    (Throw MissingS3Credentials,
     record (StoreQuery "tenants_s3_credentials" tenantId) w2).
Proof.
  intros Hcached w1 Hgone. split.
  - rewrite getS3CredentialsByAccessKey_cases.
    change (tenantS3CredentialsCache w1) with (tenantS3CredentialsCache w).
    rewrite Hcached. reflexivity.
  - intros w2. rewrite getS3CredentialsByAccessKey_cases.
    change (tenantS3CredentialsCache w2)
      with (delete (cacheKey tenantId accessKey) (tenantS3CredentialsCache w)).
    rewrite lookup_delete_eq.
    change (tenants_s3_credentials w2) with (tenants_s3_credentials w1).
    cbn zeta. rewrite Hgone. reflexivity.
Qed.

Lemma deleted_credential_served_until_invalidated_witness :
  let w1 := (deleteS3Credential "t1" "c1" cached_credential_world).2 in
  let w2 := (onTenantUpdate TENANTS_S3_CREDENTIALS_UPDATE_CHANNEL "t1:AK" w1).2 in
  (∃ c, getS3CredentialsByAccessKey sample_lib "t1" "AK" w1 = (Return c, w1)) ∧
  (getS3CredentialsByAccessKey sample_lib "t1" "AK" w2).1 = Throw MissingS3Credentials.
Proof.
  edestruct (deleted_credential_served_until_invalidated sample_lib "t1" "c1" "AK"
               cached_credential_world) as [Hstale Hgone].
  - vm_compute. reflexivity.
  - vm_compute. reflexivity.
  - split; [eexists; exact Hstale|].
    change "t1:AK" with (cacheKey "t1" "AK"). rewrite Hgone. reflexivity.
Defined.

(** ** Event dispatch: the other paths of [send] *)

Lemma shouldSend_dispatches cfg lib c payload w r w1 :
  shouldSend cfg lib c payload w = (r, w1) → dispatches w1 = dispatches w.
Proof.
  unfold shouldSend, bind.
  destruct (isMultitenant cfg); [|intros [= _ <-]; reflexivity].
  destruct (getTenantConfig lib (ref (tenant payload)) w) as [[tc|e] v] eqn:Hget.
  - destruct (bool_decide _); intros [= _ <-];
      eapply getTenantConfig_dispatches; exact Hget.
  - intros [= _ <-]. eapply getTenantConfig_dispatches; exact Hget.
Qed.

Lemma getQueueName_unset c w :
  queueName c = "" → getQueueName c w = (Throw queue_name_not_set, w).
Proof. intros H. unfold getQueueName. rewrite H. reflexivity. Qed.

(** X15. With the queue disabled, an event type that does not allow
    synchronous handling is dropped quietly: once the suppression check
    has passed, [send] returns [undefined] without throwing, logs one
    warning, and neither the queue nor a handler is reached. *)
Theorem send_skipped_when_sync_not_allowed (cfg : Config) (lib : Collaborators)
    (c : EventClass) (payload : Payload) (w w1 : World) :
  pgQueueEnable cfg = false →
  allowSync c = false →
  shouldSend cfg lib c payload w = (Return true, w1) →
  send cfg lib c payload w =
    (Return VUndefined, record (Log "warn" "[Queue] skipped sending message") w1) ∧
  dispatches (send cfg lib c payload w).2 = dispatches w.
Proof.
  intros Hq Hsync Hshould.
  assert (Hrun : send cfg lib c payload w =
            (Return VUndefined, record (Log "warn" "[Queue] skipped sending message") w1)).
  { unfold send, bind. rewrite Hshould, Hq, Hsync. reflexivity. }
  split; [exact Hrun|]. rewrite Hrun. simpl.
  rewrite dispatches_record. simpl. rewrite app_nil_r.
  eapply shouldSend_dispatches. exact Hshould.
Qed.

(** An event type that must go through the queue. *)
Lemma send_skipped_when_sync_not_allowed_witness :
  let cfg := {| pgQueueEnable := false; region := "us-east-1"; isMultitenant := true;
                dbServiceRole := "service_role"; serviceKey := "sk";
                jwtSecret := "secret" |} in
  let queued_only := {| eventName := "Webhook"; version := "v1"; queueName := "webhooks";
                        allowSync := false; getQueueOptions := fun _ => None;
                        withSlowRetryQueue := None; handle := handle Webhook |} in
  (send cfg sample_lib queued_only (sample_payload "t2" ∅) sample_world).1
    = Return VUndefined ∧
  dispatches (send cfg sample_lib queued_only (sample_payload "t2" ∅) sample_world).2 = [].
Proof.
  intros cfg queued_only.
  edestruct (send_skipped_when_sync_not_allowed cfg sample_lib queued_only
               (sample_payload "t2" ∅) sample_world) as [Hrun Hquiet].
  - reflexivity.
  - reflexivity.
  - vm_compute. reflexivity.
  - rewrite Hquiet. split; [rewrite Hrun|]; reflexivity.
Defined.

(** X16. With the queue disabled and synchronous handling allowed,
    [send] runs the handler inline on the envelope with id ['__sync'],
    the queue name and the payload wrapped as for the queue, and returns
    what the handler returns; the queue is not called. This is the job
    the handler gets when an enqueue fails. *)
Theorem send_handles_inline_when_queue_disabled (cfg : Config) (lib : Collaborators)
    (c : EventClass) (payload : Payload) (w w1 : World) :
  pgQueueEnable cfg = false →
  allowSync c = true →
  queueName c ≠ "" →
  shouldSend cfg lib c payload w = (Return true, w1) →
  let sync := {| job_id := "__sync"; job_name := queueName c;
                 job_data := envelope cfg c payload |} in
  send cfg lib c payload w = handle c sync (record (Handle (eventName c) sync) w1) ∧
  dispatches (record (Handle (eventName c) sync) w1)
    = (dispatches w ++ [Handle (eventName c) sync])%list.
Proof.
  intros Hq Hsync Hname Hshould sync. split.
  - unfold send, bind. rewrite Hshould, Hq, Hsync. simpl.
    unfold handle_sync, bind, emit, modify.
    rewrite (getQueueName_set c) by exact Hname. reflexivity.
  - rewrite dispatches_record. simpl.
    rewrite (shouldSend_dispatches _ _ _ _ _ _ _ Hshould). reflexivity.
Qed.

Lemma send_handles_inline_when_queue_disabled_witness :
  let cfg := {| pgQueueEnable := false; region := "us-east-1"; isMultitenant := true;
                dbServiceRole := "service_role"; serviceKey := "sk";
                jwtSecret := "secret" |} in
  (send cfg sample_lib Webhook (sample_payload "t2" ∅) sample_world).1
    = Return (VStr "delivered") ∧
  dispatches (send cfg sample_lib Webhook (sample_payload "t2" ∅) sample_world).2
    = [Handle "Webhook" {| job_id := "__sync"; job_name := "webhooks";
                           job_data := envelope cfg Webhook (sample_payload "t2" ∅) |}].
Proof.
  intros cfg.
  edestruct (send_handles_inline_when_queue_disabled cfg sample_lib Webhook
               (sample_payload "t2" ∅) sample_world) as [Hrun _].
  - reflexivity.
  - reflexivity.
  - discriminate.
  - vm_compute. reflexivity.
  - rewrite Hrun. split; vm_compute; reflexivity.
Defined.

(** X17. An event type without a queue name fails fast: once the
    suppression check has passed, and unless the event is dropped (queue
    disabled, synchronous handling not allowed), [send] throws
    [Queue name not set] and neither the queue nor a handler is reached,
    also on the path that would fall back to the handler. *)
Theorem send_without_queue_name (cfg : Config) (lib : Collaborators)
    (c : EventClass) (payload : Payload) (w w1 : World) :
  queueName c = "" →
  pgQueueEnable cfg = true ∨ allowSync c = true →
  shouldSend cfg lib c payload w = (Return true, w1) →
  (send cfg lib c payload w).1 = Throw queue_name_not_set ∧
  dispatches (send cfg lib c payload w).2 = dispatches w.
Proof.
  intros Hname Hpath Hshould.
  pose proof (shouldSend_dispatches _ _ _ _ _ _ _ Hshould) as Hd.
  unfold send, bind. rewrite Hshould. simpl.
  destruct (pgQueueEnable cfg) eqn:Hq; simpl.
  - unfold try_finally, try_catch, handle_sync, bind, emit, modify.
    repeat (rewrite (getQueueName_unset c) by exact Hname; simpl).
    split; [reflexivity|]. rewrite dispatches_record. simpl.
    rewrite app_nil_r. exact Hd.
  - destruct Hpath as [Hpath|Hsync]; [discriminate|]. rewrite Hsync.
    unfold handle_sync, bind. rewrite (getQueueName_unset c) by exact Hname.
    split; [reflexivity|exact Hd].
Qed.

Lemma send_without_queue_name_witness :
  (send sample_config sample_lib Event (sample_payload "t2" ∅) sample_world).1
    = Throw (JsError "Queue name not set on Function") ∧
  dispatches (send sample_config sample_lib Event (sample_payload "t2" ∅) sample_world).2
    = [].
Proof.
  apply (send_without_queue_name sample_config sample_lib Event (sample_payload "t2" ∅)
           sample_world (getTenantConfig sample_lib "t2" sample_world).2).
  - reflexivity.
  - left. reflexivity.
  - vm_compute. reflexivity.
Defined.

(** X18. A suppression check that cannot be made stops the send: in
    multi-tenant mode, when the configuration of the payload's tenant
    cannot be obtained (empty reference, no such tenant, key that does not
    verify), [send] fails with the error of [getTenantConfig], and
    neither the queue nor a handler is reached. *)
Theorem send_fails_with_the_tenant_lookup (cfg : Config) (lib : Collaborators)
    (c : EventClass) (payload : Payload) (w w1 : World) (e : error) :
  isMultitenant cfg = true →
  getTenantConfig lib (ref (tenant payload)) w = (Throw e, w1) →
  send cfg lib c payload w = (Throw e, w1) ∧
  dispatches w1 = dispatches w.
Proof.
  intros Hmulti Hget. split.
  - unfold send, shouldSend, bind. rewrite Hmulti, Hget. reflexivity.
  - eapply getTenantConfig_dispatches. exact Hget.
Qed.

Lemma send_fails_with_the_tenant_lookup_witness :
  (send sample_config sample_lib Webhook (sample_payload "" ∅) sample_world).1
    = Throw InvalidTenantId ∧
  (send sample_config sample_lib Webhook (sample_payload "t3" ∅) sample_world).1
    = Throw (MissingTenantConfig "t3").
Proof.
  split.
  - edestruct (send_fails_with_the_tenant_lookup sample_config sample_lib Webhook
                 (sample_payload "" ∅) sample_world) as [Hrun _];
      [reflexivity|vm_compute; reflexivity|].
    rewrite Hrun. reflexivity.
  - edestruct (send_fails_with_the_tenant_lookup sample_config sample_lib Webhook
                 (sample_payload "t3" ∅) sample_world) as [Hrun _];
      [reflexivity|vm_compute; reflexivity|].
    rewrite Hrun. reflexivity.
Defined.

(** ** The slow-retry queue and the static entry points *)

(** X19. [sendSlowRetryQueue] does nothing for an event type without a
    slow-retry policy, and nothing while the queue is disabled: it
    returns [undefined] and the world is untouched (no job, no handler,
    no log line). *)
Theorem sendSlowRetryQueue_noop (cfg : Config) (lib : Collaborators)
    (c : EventClass) (payload : Payload) (w : World) :
  withSlowRetryQueue c = None ∨ pgQueueEnable cfg = false →
  sendSlowRetryQueue cfg lib c payload w = (Return VUndefined, w).
Proof.
  unfold sendSlowRetryQueue. intros [Hnone|Hoff].
  - rewrite Hnone. reflexivity.
  - rewrite Hoff. destruct (withSlowRetryQueue c); reflexivity.
Qed.

Lemma sendSlowRetryQueue_noop_witness :
  sendSlowRetryQueue sample_config sample_lib Webhook (sample_payload "t1" ∅) sample_world
  = (Return VUndefined, sample_world).
Proof.
  apply (sendSlowRetryQueue_noop sample_config sample_lib Webhook). left. reflexivity.
Defined.

(** X20. Unlike [send], [sendSlowRetryQueue] has no fallback and no
    suppression check. It never consults the tenant configuration and
    never runs the handler: whatever the outcome, the tenant config cache
    is as before, no store query was made and at most one job, for the
    slow queue, was handed to the queue. When the queue rejects that job the failure reaches the
    caller. *)
Theorem sendSlowRetryQueue_no_fallback (cfg : Config) (lib : Collaborators)
    (c : EventClass) (payload : Payload) (w : World) :
  let w' := (sendSlowRetryQueue cfg lib c payload w).2 in
  tenantConfigCache w' = tenantConfigCache w ∧
  (∀ t, store_queries t w' = store_queries t w) ∧
  (dispatches w' = dispatches w ∨
   ∃ job, dispatches w' = (dispatches w ++ [QueueSend job])%list ∧
          name job = queueName c ++ "-slow") ∧
  (∀ policy e,
     pgQueueEnable cfg = true → queueName c ≠ "" →
     withSlowRetryQueue c = Some policy →
     queue_send lib {| name := queueName c ++ "-slow"; data := envelope cfg c payload;
                       options := Some (slow_retry_options
                                          (default ∅ (getQueueOptions c payload)) policy) |}
       = Throw e →
     (sendSlowRetryQueue cfg lib c payload w).1 = Throw e).
Proof.
  intros w'. subst w'. unfold sendSlowRetryQueue, getSlowRetryQueueName.
  unfold bind, emit, modify, lift, ret, throw.
  destruct (withSlowRetryQueue c) as [policy|] eqn:Hpolicy.
  2:{ simpl. repeat split; auto. intros; discriminate. }
  destruct (pgQueueEnable cfg) eqn:Hq; simpl.
  2:{ repeat split; auto. intros; discriminate. }
  destruct (String.eqb (queueName c) "") eqn:Hname; simpl.
  { repeat split; auto. intros ? ? _ Hne. apply String.eqb_eq in Hname. congruence. }
  destruct (queue_send lib _) as [res|e0] eqn:Hsend; simpl.
  - split; [reflexivity|]. split; [intros t; unfold store_queries; simpl;
      rewrite !List.filter_app; simpl; rewrite !app_nil_r; reflexivity|].
    split.
    + right. eexists. split.
      * unfold dispatches; simpl. rewrite !List.filter_app. simpl.
        rewrite !app_nil_r. reflexivity.
      * reflexivity.
    + intros policy' e _ _ [= <-] He. rewrite He in Hsend. discriminate.
  - split; [reflexivity|]. split; [intros t; unfold store_queries; simpl;
      rewrite !List.filter_app; simpl; rewrite !app_nil_r; reflexivity|].
    split.
    + right. eexists. split.
      * unfold dispatches; simpl. rewrite !List.filter_app. simpl. reflexivity.
      * reflexivity.
    + intros policy' e _ _ [= <-] He. rewrite He in Hsend. congruence.
Qed.

Lemma sendSlowRetryQueue_no_fallback_witness :
  (sendSlowRetryQueue sample_config queue_down_lib BackupObject (sample_payload "t1" ∅)
     sample_world).1 = Throw (CollaboratorError "queue unreachable").
Proof.
  eapply (sendSlowRetryQueue_no_fallback sample_config queue_down_lib BackupObject
            (sample_payload "t1" ∅) sample_world).
  - reflexivity.
  - discriminate.
  - reflexivity.
  - reflexivity.
Defined.

(** X21. Precedence of the options of a slow-retry job: a field of the
    policy wins over the same option of the event type, an option of the
    event type wins over the two defaults ([retryBackoff], [startAfter]),
    and every other option of the event type is passed on. *)
Theorem sendSlowRetryQueue_option_precedence (cfg : Config) (lib : Collaborators)
    (c : EventClass) (payload : Payload) (w : World)
    (policy : SlowRetryQueueOptions) (own : object) (res : value) :
  pgQueueEnable cfg = true →
  queueName c ≠ "" →
  withSlowRetryQueue c = Some policy →
  getQueueOptions c payload = Some own →
  ∃ job o,
    (queue_send lib job = Return res →
     dispatches (sendSlowRetryQueue cfg lib c payload w).2
       = (dispatches w ++ [QueueSend job])%list) ∧
    options job = Some o ∧
    o !! "retryLimit" = Some (VNum (retryLimit policy)) ∧
    o !! "retryDelay" = Some (VNum (retryDelay policy)) ∧
    (∀ k v, k ≠ "retryLimit" → k ≠ "retryDelay" → own !! k = Some v → o !! k = Some v) ∧
    (own !! "retryBackoff" = None → o !! "retryBackoff" = Some (VBool true)) ∧
    (own !! "startAfter" = None → o !! "startAfter" = Some (VNum (60 * 60 * 30))).
Proof.
  intros Hq Hname Hpolicy Hown.
  eexists {| name := queueName c ++ "-slow"; data := envelope cfg c payload;
             options := Some (slow_retry_options own policy) |}, _.
  split; [|split; [reflexivity|]].
  - intros Hres.
    rewrite (sendSlowRetryQueue_enqueues cfg lib c payload w policy Hq Hname Hpolicy res)
      by (rewrite Hown; exact Hres).
    rewrite Hown. unfold dispatches; simpl. rewrite !List.filter_app. simpl.
    rewrite !app_nil_r. reflexivity.
  - destruct (slow_retry_options_policy own policy) as [Hlimit Hdelay].
    split; [exact Hlimit|]. split; [exact Hdelay|]. split; [|split].
    + intros k v Hk1 Hk2 Hv. unfold slow_retry_options.
      rewrite lookup_union_r.
      * apply lookup_union_Some_l. exact Hv.
      * unfold slow_retry_object.
        rewrite lookup_insert_ne by congruence.
        apply lookup_singleton_ne. congruence.
    + intros Hb. unfold slow_retry_options.
      rewrite lookup_union_r by (vm_compute; reflexivity).
      rewrite lookup_union_r by exact Hb. vm_compute. reflexivity.
    + intros Hs. unfold slow_retry_options.
      rewrite lookup_union_r by (vm_compute; reflexivity).
      rewrite lookup_union_r by exact Hs. vm_compute. reflexivity.
Qed.

(** An event type with a policy and options of its own. *)
Lemma sendSlowRetryQueue_option_precedence_witness :
  let own : object := {[ "startAfter" := VNum 60; "retryLimit" := VNum 1;
                         "priority" := VNum 7 ]} in
  let c := {| eventName := "BackupObject"; version := "v1"; queueName := "backup-object";
              allowSync := true; getQueueOptions := fun _ => Some own;
              withSlowRetryQueue := Some {| retryLimit := 5; retryDelay := 3600 |};
              handle := fun _ => ret VUndefined |} in
  ∃ job o,
    dispatches (sendSlowRetryQueue sample_config sample_lib c (sample_payload "t1" ∅)
                  empty_world).2 = [QueueSend job] ∧
    options job = Some o ∧
    o !! "retryLimit" = Some (VNum 5) ∧
    o !! "priority" = Some (VNum 7) ∧
    o !! "startAfter" = Some (VNum 60) ∧
    o !! "retryBackoff" = Some (VBool true).
Proof.
  intros own c.
  destruct (sendSlowRetryQueue_option_precedence sample_config sample_lib c
              (sample_payload "t1" ∅) empty_world {| retryLimit := 5; retryDelay := 3600 |}
              own (VStr "job-1"))
    as (job & o & Hrun & Ho & Hlimit & _ & Hown & Hbackoff & _);
    [reflexivity|discriminate|reflexivity|reflexivity|].
  exists job, o. split; [apply Hrun; reflexivity|]. split; [exact Ho|].
  split; [exact Hlimit|]. split; [|split].
  - apply Hown; [discriminate|discriminate|vm_compute; reflexivity].
  - apply Hown; [discriminate|discriminate|vm_compute; reflexivity].
  - apply Hbackoff. vm_compute. reflexivity.
Defined.

Lemma envelope_stamped cfg c payload :
  envelope cfg c (stamp_version c payload) = envelope cfg c payload.
Proof.
  unfold stamp_version, envelope.
  destruct (truthy (prop (props payload) "$version")); [reflexivity|]. simpl.
  f_equal. apply map_eq. intros k.
  destruct (decide (k = "$version")) as [->|Hk].
  - rewrite !lookup_insert_eq. reflexivity.
  - rewrite !lookup_insert_ne by congruence.
    rewrite !lookup_union. rewrite lookup_insert_ne by congruence. reflexivity.
Qed.

Lemma scheduleAt_stamped c payload :
  prop (props (stamp_version c payload)) "scheduleAt" = prop (props payload) "scheduleAt".
Proof. unfold prop. rewrite stamp_version_other by discriminate. reflexivity. Qed.

(** X22. The stamp of the static entry points does not show in what is
    dispatched: the envelope built from a payload stamped with the
    version tag is the envelope built from the payload itself. So for an
    event type whose queue options do not depend on the stamp, the static
    [send] and [sendSlowRetryQueue] do exactly what the instance methods
    do on the caller's payload. *)
Theorem static_send_is_send (cfg : Config) (lib : Collaborators)
    (c : EventClass) (payload : Payload) (w : World) :
  envelope cfg c (stamp_version c payload) = envelope cfg c payload ∧
  (getQueueOptions c (stamp_version c payload) = getQueueOptions c payload →
   static_send cfg lib c payload w = send cfg lib c payload w ∧
   static_sendSlowRetryQueue cfg lib c payload w = sendSlowRetryQueue cfg lib c payload w).
Proof.
  split; [apply envelope_stamped|]. intros Hopts.
  assert (Hshould : shouldSend cfg lib c (stamp_version c payload)
                    = shouldSend cfg lib c payload).
  { unfold shouldSend, stamp_version.
    destruct (truthy (prop (props payload) "$version")); reflexivity. }
  split.
  - unfold static_send, send, handle_sync, sendOptions_of.
    rewrite Hshould, envelope_stamped, Hopts, scheduleAt_stamped. reflexivity.
  - unfold static_sendSlowRetryQueue, sendSlowRetryQueue.
    rewrite envelope_stamped, Hopts. reflexivity.
Qed.

Lemma static_send_is_send_witness :
  static_send sample_config sample_lib Webhook (sample_payload "t2" ∅) sample_world
  = send sample_config sample_lib Webhook (sample_payload "t2" ∅) sample_world.
Proof.
  apply (static_send_is_send sample_config sample_lib Webhook (sample_payload "t2" ∅)
           sample_world).
  reflexivity.
Defined.

(** ** [batchSend] *)

(** X23. [batchSend] makes no suppression check. With the queue enabled
    it never looks at a tenant's configuration: even when every message
    is for a tenant that has switched the event off, so that [send]
    would drop each of them, all the messages are inserted as one batch
    of as many jobs. *)
Theorem batchSend_ignores_suppression (cfg : Config) (lib : Collaborators)
    (c : EventClass) (messages : list (EventClass * Payload)) (w : World) :
  pgQueueEnable cfg = true →
  isMultitenant cfg = true →
  queueName c ≠ "" →
  Forall (fun m => ∃ tc, getTenantConfig lib (ref (tenant m.2)) w = (Return tc, w) ∧
                         eventName c ∈ default [] (disableEvents tc)) messages →
  Forall (fun m => send cfg lib c m.2 w = (Return VUndefined, w)) messages ∧
  ∃ jobs,
    length jobs = length messages ∧
    (batchSend cfg lib c messages w).2 = record (QueueInsert jobs) w.
Proof.
  intros Hq Hmulti Hname Hoff. split.
  - eapply Forall_impl; [exact Hoff|]. intros m (tc & Hget & Hin). simpl.
    unfold send, shouldSend, bind. rewrite Hmulti, Hget.
    rewrite bool_decide_eq_true_2 by exact Hin. reflexivity.
  - destruct (batch_jobs_run cfg lib c messages w Hname) as (jobs & Hjobs & Hall).
    exists jobs. split; [symmetry; eapply Forall2_length; exact Hall|].
    unfold batchSend, bind. rewrite Hq. simpl. rewrite Hjobs.
    unfold emit, modify, lift, ret. destruct (queue_insert lib jobs); reflexivity.
Qed.

Lemma batchSend_ignores_suppression_witness :
  let w := (getTenantConfig sample_lib "t1" sample_world).2 in
  let messages := [(Webhook, sample_payload "t1" ∅);
                   (Webhook, sample_payload "t1" {[ "bucketId" := VStr "avatars" ]})] in
  Forall (fun m => send sample_config sample_lib Webhook m.2 w = (Return VUndefined, w))
         messages ∧
  ∃ jobs, length jobs = 2 ∧
          (batchSend sample_config sample_lib Webhook messages w).2
          = record (QueueInsert jobs) w.
Proof.
  intros w messages.
  apply (batchSend_ignores_suppression sample_config sample_lib Webhook messages w).
  - reflexivity.
  - reflexivity.
  - discriminate.
  - repeat constructor; eexists; (split; [vm_compute; reflexivity|]);
      vm_compute; apply list_elem_of_here.
Defined.

Lemma map_M_batch_job_unset lib c (m : EventClass * Payload) messages w :
  queueName c = "" →
  map_M (fun m : EventClass * Payload => batch_job lib c m.2) (m :: messages) w
  = (Throw queue_name_not_set, w).
Proof.
  intros Hname. simpl. unfold bind, batch_job, bind.
  rewrite (getQueueName_unset c) by exact Hname. reflexivity.
Qed.

(** X24. The edges of [batchSend]. With the queue disabled and
    synchronous handling not allowed for the event type, it only logs a
    warning and returns [undefined]. With the queue enabled, an empty
    list of messages is still inserted, as an empty batch, even for an
    event type without a queue name; with at least one message such an
    event type makes [batchSend] throw [Queue name not set] before
    anything is inserted. *)
Theorem batchSend_edges (cfg : Config) (lib : Collaborators) (c : EventClass)
    (m : EventClass * Payload) (messages : list (EventClass * Payload)) (w : World) :
  (pgQueueEnable cfg = false → allowSync c = false →
   batchSend cfg lib c (m :: messages) w =
     (Return (Plain VUndefined),
      record (Log "warn" "[Queue] skipped sending batch messages") w)) ∧
  (pgQueueEnable cfg = true →
   (batchSend cfg lib c [] w).2 = record (QueueInsert []) w) ∧
  (pgQueueEnable cfg = true → queueName c = "" →
   batchSend cfg lib c (m :: messages) w = (Throw queue_name_not_set, w)).
Proof.
  split; [|split].
  - intros Hq Hsync. unfold batchSend. rewrite Hq, Hsync. reflexivity.
  - intros Hq. unfold batchSend, bind. rewrite Hq. simpl.
    unfold lift. destruct (queue_insert lib []); reflexivity.
  - intros Hq Hname. unfold batchSend, bind. rewrite Hq.
    cbn [negb]. rewrite map_M_batch_job_unset by exact Hname. reflexivity.
Qed.

Lemma batchSend_edges_witness :
  batchSend sample_config sample_lib Event [(Event, sample_payload "t1" ∅)] sample_world
  = (Throw (JsError "Queue name not set on Function"), sample_world) ∧
  (batchSend sample_config sample_lib Event [] sample_world).2
  = record (QueueInsert []) sample_world.
Proof.
  destruct (batchSend_edges sample_config sample_lib Event (Event, sample_payload "t1" ∅)
              [] sample_world) as (_ & Hempty & Hunset).
  split; [apply Hunset; reflexivity|apply Hempty; reflexivity].
Defined.

(** ** Racing callers, whatever the store holds *)

Lemma sum_moved (f : Race.pc → nat) (l : list Race.pc) (i : nat) (p0 p : Race.pc) :
  l !! i = Some p0 →
  sum_list (f <$> <[i := p]> l) + f p0 = sum_list (f <$> l) + f p.
Proof.
  revert i. induction l as [|q l IH]; intros [|i] Hi; simpl in *; try discriminate.
  - injection Hi as ->. lia.
  - specialize (IH i Hi). unfold fmap in *. lia.
Qed.

Lemma asked_le_length (l : list Race.pc) : sum_list (past_the_key <$> l) ≤ length l.
Proof.
  induction l as [|p l IH]; simpl; [lia|].
  unfold fmap in *. destruct p; simpl; lia.
Qed.

Lemma race_step_asked lib tenantId i s s' :
  Race.step lib tenantId i s = Some s' →
  length (Race.callers s') = length (Race.callers s) ∧
  store_queries tenantId (Race.world s') + asked s
    ≤ store_queries tenantId (Race.world s) + asked s' ∧
  ∀ t, t ≠ tenantId →
       store_queries t (Race.world s') = store_queries t (Race.world s).
Proof.
  unfold Race.step, asked.
  destruct (Race.callers s !! i) as [p|] eqn:Hi; [|discriminate].
  pose proof (fun q => sum_moved past_the_key (Race.callers s) i p q Hi) as Hsum.
  assert (Hother : ∀ t, t ≠ tenantId →
            store_queries t (record (StoreQuery "tenants" tenantId) (Race.world s))
            = store_queries t (Race.world s)).
  { intros t Hne. rewrite store_queries_record. simpl.
    destruct (String.eqb tenantId t) eqn:Heq; [|lia].
    apply String.eqb_eq in Heq. congruence. }
  destruct p as [ | | | |row|r]; simpl in Hsum.
  - destruct (String.eqb tenantId "");
      [|destruct (tenantConfigCache (Race.world s) !! tenantId)];
      intros [= <-]; unfold Race.move; simpl; rewrite length_insert;
      (split; [reflexivity|]); (split; [|reflexivity]);
      match goal with |- context [<[i := ?q]> _] => specialize (Hsum q) end;
      simpl in Hsum; lia.
  - destruct (Race.lock s); [discriminate|].
    intros [= <-]; simpl; rewrite length_insert.
    split; [reflexivity|]. split; [|reflexivity].
    specialize (Hsum Race.Holding); simpl in Hsum; lia.
  - destruct (tenantConfigCache (Race.world s) !! tenantId);
      intros [= <-]; unfold Race.release; simpl; rewrite length_insert;
      (split; [reflexivity|]).
    + split; [|reflexivity].
      specialize (Hsum (Race.Settled (Return t))); simpl in Hsum; lia.
    + split; [|exact Hother].
      rewrite store_queries_record, is_tenant_query_refl.
      specialize (Hsum Race.Selecting); simpl in Hsum; lia.
  - destruct (tenants (Race.world s) !! tenantId);
      intros [= <-]; unfold Race.move, Race.release; simpl; rewrite length_insert;
      (split; [reflexivity|]); (split; [|reflexivity]);
      match goal with |- context [<[i := ?q]> _] => specialize (Hsum q) end;
      simpl in Hsum; lia.
  - destruct (verifyJWT lib _ _);
      intros [= <-]; unfold Race.release; simpl; rewrite length_insert;
      (split; [reflexivity|]); (split; [|reflexivity]);
      match goal with |- context [<[i := ?q]> _] => specialize (Hsum q) end;
      simpl in Hsum; unfold store_queries in *; simpl; lia.
  - discriminate.
Qed.

(** X25. No caller asks the store twice. Whatever the store holds (also
    when the tenant has no row, or its key does not verify, and nothing
    can be cached), [n] callers of [getTenantConfig] for one tenant, run
    in any order, make at most [n] store queries between them, and none
    for any other tenant. *)
Theorem getTenantConfig_one_query_per_caller (lib : Collaborators) (tenantId : string)
    (w : World) (n : nat) (schedule : list nat) :
  let s := Race.run lib tenantId schedule (Race.init n w) in
  store_queries tenantId (Race.world s) ≤ store_queries tenantId w + n ∧
  ∀ t, t ≠ tenantId → store_queries t (Race.world s) = store_queries t w.
Proof.
  intros s.
  assert (Hinv : ∀ sch s0,
            length (Race.callers (Race.run lib tenantId sch s0)) = length (Race.callers s0) ∧
            store_queries tenantId (Race.world (Race.run lib tenantId sch s0)) + asked s0
              ≤ store_queries tenantId (Race.world s0)
                + asked (Race.run lib tenantId sch s0) ∧
            ∀ t, t ≠ tenantId →
                 store_queries t (Race.world (Race.run lib tenantId sch s0))
                 = store_queries t (Race.world s0)).
  { induction sch as [|i sch IH]; intros s0; simpl.
    - split; [reflexivity|]. split; [lia|reflexivity].
    - destruct (Race.step lib tenantId i s0) as [s1|] eqn:Hstep; simpl; [|apply IH].
      destruct (race_step_asked lib tenantId i s0 s1 Hstep) as (Hlen & Hq & Ho).
      destruct (IH s1) as (Hlen' & Hq' & Ho').
      split; [congruence|]. split; [lia|].
      intros t Hne. rewrite Ho' by exact Hne. apply Ho. exact Hne. }
  destruct (Hinv schedule (Race.init n w)) as (Hlen & Hq & Ho).
  fold s in Hlen, Hq, Ho. split; [|exact Ho].
  pose proof (asked_le_length (Race.callers s)) as Hle. fold (asked s) in Hle.
  assert (Hinit : asked (Race.init n w) = 0).
  { unfold asked, Race.init; simpl. clear. induction n; simpl; [reflexivity|].
    unfold fmap in *. lia. }
  assert (Hn : length (Race.callers (Race.init n w)) = n) by apply length_replicate.
  simpl in Hq. lia.
Qed.

Lemma getTenantConfig_one_query_per_caller_witness :
  let s := Race.run sample_lib "t3" [0; 1; 0; 1; 0; 0; 1; 1; 1] (Race.init 2 sample_world) in
  store_queries "t3" (Race.world s) ≤ 2 ∧
  store_queries "t1" (Race.world s) = 0.
Proof.
  destruct (getTenantConfig_one_query_per_caller sample_lib "t3" sample_world 2
              [0; 1; 0; 1; 0; 0; 1; 1; 1]) as [Hbound Hother].
  split; [exact Hbound|]. apply Hother. discriminate.
Defined.

(** ** The image renderer *)

Module ImageRendererFacts.
Import Stdlib.Strings.Ascii.
Import ImageRenderer.

Lemma clamp_within (z lo hi : Z) :
  (lo ≤ hi)%Z →
  ∃ v, clamp (Num z) (Num lo) (Num hi) = Num v ∧ (lo ≤ v ≤ hi)%Z ∧
       ((lo ≤ z ≤ hi)%Z → v = z).
Proof.
  intros Hle. exists (Z.min (Z.max z lo) hi). split; [reflexivity|]. lia.
Qed.

Lemma given_number (n : option number) :
  given n = true → ∃ z, n = Some (Num z) ∧ z ≠ 0%Z.
Proof.
  destruct n as [[|z]|]; simpl; try discriminate.
  intros H. exists z. split; [reflexivity|]. intros ->. discriminate.
Qed.

Lemma formatResizeType_range (resize : option string) :
  formatResizeType resize = "fill" ∨ formatResizeType resize = "fit" ∨
  formatResizeType resize = "force".
Proof.
  unfold formatResizeType.
  repeat match goal with
         | |- context [match ?x with _ => _ end] => destruct x
         end; tauto.
Qed.

Section Segments.
Context (limits : SizeLimits) (show : number → string) (lo hi : Z).
Hypothesis Hmin : size_min limits = Num lo.
Hypothesis Hmax : size_max limits = Num hi.
Hypothesis Hle : (lo ≤ hi)%Z.

Lemma size_segment_ok (n : option number) :
  given n = true →
  ∃ v, clamp (default NaN n) (size_min limits) (size_max limits) = Num v ∧
       (lo ≤ v ≤ hi)%Z.
Proof.
  intros Hn. destruct (given_number n Hn) as (z & -> & _). simpl.
  rewrite Hmin, Hmax. destruct (clamp_within z lo hi Hle) as (v & Hv & Hb & _).
  exists v. split; [exact Hv|exact Hb].
Qed.

Lemma applyTransformation_segments options keepOriginal :
  Forall (segment_ok show lo hi) (applyTransformation limits show options keepOriginal) ∧
  length (applyTransformation limits show options keepOriginal) ≤ 5.
Proof.
  unfold applyTransformation, push.
  assert (Hh : given (height options) = true →
               segment_ok show lo hi
                 ("height:" ++ show (clamp (default NaN (height options))
                                       (size_min limits) (size_max limits)))).
  { intros Hg. destruct (size_segment_ok _ Hg) as (v & -> & Hb). left. eauto. }
  assert (Hw : given (width options) = true →
               segment_ok show lo hi
                 ("width:" ++ show (clamp (default NaN (width options))
                                      (size_min limits) (size_max limits)))).
  { intros Hg. destruct (size_segment_ok _ Hg) as (v & -> & Hb). right; left. eauto. }
  assert (Hq : given (quality options) = true →
               segment_ok show lo hi
                 ("quality:" ++ show (default NaN (quality options)))).
  { intros Hg. destruct (given_number _ Hg) as (z & -> & Hz).
    do 4 right. left. eauto. }
  assert (Hr : segment_ok show lo hi ("resize:" ++ template (resize options))).
  { do 2 right. left. eauto. }
  assert (Ht : segment_ok show lo hi
                 ("resizing_type:" ++ formatResizeType (resize options))).
  { do 3 right. left. eexists. split; [reflexivity|]. apply formatResizeType_range. }
  assert (Hf : ∀ f, negb (String.eqb f "") && negb (String.eqb f "origin") = true →
               segment_ok show lo hi ("format:" ++ f)).
  { intros f Hf. apply andb_prop in Hf as [H1 H2].
    apply negb_true_iff in H1, H2. apply String.eqb_neq in H1, H2.
    do 5 right. eauto. }
  destruct (given (height options)); destruct (given (width options));
    destruct keepOriginal; destruct (given (quality options));
    (destruct (format options) as [f|];
     [destruct (negb (String.eqb f "") && negb (String.eqb f "origin")) eqn:Hfmt|]);
    simpl;
    (split; [|lia]);
    repeat match goal with
           | |- Forall _ (_ :: _) => constructor; [auto|]
           | |- Forall _ [] => constructor
           end.
Qed.

End Segments.



Lemma split_nonempty (c : ascii) (s : string) : split c s ≠ [].
Proof.
  destruct s as [|a s]; simpl; [discriminate|].
  destruct (Ascii.eqb a c); [discriminate|]. destruct (split c s); discriminate.
Qed.

Lemma split_app_sep (c : ascii) (s1 s2 : string) :
  split c (s1 ++ String c s2) = (split c s1 ++ split c s2)%list.
Proof.
  induction s1 as [|a s1 IH]; simpl.
  - rewrite Ascii.eqb_refl. reflexivity.
  - destruct (Ascii.eqb a c); [rewrite IH; reflexivity|].
    rewrite IH. pose proof (split_nonempty c s1) as Hne.
    destruct (split c s1) as [|piece pieces]; [congruence|reflexivity].
Qed.

Lemma split_none (c : ascii) (s : string) : occurs c s = false → split c s = [s].
Proof.
  induction s as [|a s IH]; simpl; [reflexivity|].
  destruct (Ascii.eqb a c); [discriminate|]. simpl. intros H. rewrite (IH H). reflexivity.
Qed.

Section Parameters.
Context (parseInt : option string → number).

(** One more parameter [name:value] at the end of the string. *)
Lemma one_more_parameter (a name v : string) :
  occurs "," name = false → occurs ":" name = false →
  occurs "," v = false → occurs ":" v = false →
  split "," (a ++ String "," (name ++ String ":" v))
    = (split "," a ++ [(name ++ String ":" v)%string])%list ∧
  split ":" (name ++ String ":" v) = [name; v].
Proof.
  intros Hn1 Hn2 Hv1 Hv2. split.
  - rewrite split_app_sep. f_equal. apply split_none.
    clear Hn2 Hv2. induction name as [|x name IH]; simpl in *.
    + rewrite Hv1. reflexivity.
    + apply orb_false_iff in Hn1 as [-> Hn1]. simpl. apply IH. exact Hn1.
  - rewrite split_app_sep, (split_none _ name Hn2), (split_none _ v Hv2). reflexivity.
Qed.

Lemma setTransformationsFromString_one_more (a name v : string) :
  occurs "," name = false → occurs ":" name = false →
  occurs "," v = false → occurs ":" v = false →
  setTransformationsFromString parseInt (a ++ String "," (name ++ String ":" v))
  = set_param parseInt (setTransformationsFromString parseInt a) (name ++ String ":" v) ∧
  split ":" (name ++ String ":" v) = [name; v].
Proof.
  intros Hn1 Hn2 Hv1 Hv2.
  destruct (one_more_parameter a name v Hn1 Hn2 Hv1 Hv2) as [Hsplit Hpieces].
  split; [|exact Hpieces].
  unfold setTransformationsFromString. cbn zeta. rewrite Hsplit.
  rewrite fold_left_app. reflexivity.
Qed.

End Parameters.



End ImageRendererFacts.
